(** * bball_ref: roster scraping and stat-table extraction

    A shallow embedding of [src/bball_ref.py] ([get_all_players] and
    [get_table]) and the properties of the two functions.

    The parsed page is a tree of tags, text nodes and comment nodes; the
    BeautifulSoup queries the module uses ([find_all], [find], [get],
    [get_text], subscripting) are functions on that tree.  Python
    exceptions are the [Raise] results of a small error monad.  The HTML
    parser and the HTTP client are the libraries' own code and are taken as
    section variables.  Console messages and the randomised delay are not
    observed by any property below and are left out; of the optional CSV
    dump only the path written is kept. *)

From stdpp Require Import base option list strings gmap.
From Stdlib Require Import ZArith Ascii.


(** ** Exceptions *)

Inductive exn :=
  | NameError
  | UnboundLocalError
  | IndexError
  | KeyError
  | AttributeError.

Inductive result (A : Type) :=
  | Ret (a : A)
  | Raise (e : exn).
Arguments Ret {A} a.
Arguments Raise {A} e.

#[global] Instance result_ret : MRet result := λ A a, Ret a.
#[global] Instance result_bind : MBind result := λ A B f m,
  match m with
  | Ret a => f a
  | Raise e => Raise e
  end.

#[global] Instance result_fmap : FMap result := λ A B f m,
  match m with
  | Ret a => Ret (f a)
  | Raise e => Raise e
  end.

#[global] Instance exn_eq_dec : EqDecision exn.
Proof. solve_decision. Defined.

(** [l[i]] for a non-negative index. *)
Definition getitem {A} (l : list A) (i : nat) : result A :=
  match l !! i with
  | Some a => Ret a
  | None => Raise IndexError
  end.

(** ** Strings *)

Module Str.

Definition star : ascii := "*"%char.
Definition newline : ascii := "010"%char.

(** [s[-1]]. *)
Fixpoint last (s : string) : option ascii :=
  match s with
  | EmptyString => None
  | String c EmptyString => Some c
  | String _ s' => last s'
  end.

Definition getitem_last (s : string) : result ascii :=
  match last s with
  | Some c => Ret c
  | None => Raise IndexError
  end.

(** [s.rstrip(c)] for a one-character argument. *)
Fixpoint rstrip (c : ascii) (s : string) : string :=
  match s with
  | EmptyString => EmptyString
  | String a s' =>
      match rstrip c s' with
      | EmptyString => if bool_decide (a = c) then EmptyString else String a EmptyString
      | r => String a r
      end
  end.

Fixpoint lstrip_by (p : ascii → bool) (s : string) : string :=
  match s with
  | EmptyString => EmptyString
  | String a s' => if p a then lstrip_by p s' else s
  end.

Fixpoint rstrip_by (p : ascii → bool) (s : string) : string :=
  match s with
  | EmptyString => EmptyString
  | String a s' =>
      match rstrip_by p s' with
      | EmptyString => if p a then EmptyString else String a EmptyString
      | r => String a r
      end
  end.

(** The characters [str.strip()] removes, on the ASCII range. *)
Definition is_space (a : ascii) : bool :=
  let n := nat_of_ascii a in
  ((9 <=? n)%nat && (n <=? 13)%nat) || ((28 <=? n)%nat && (n <=? 32)%nat).

Definition strip (s : string) : string := rstrip_by is_space (lstrip_by is_space s).

(** [s.split(c)] for a one-character separator: never an empty list. *)
Fixpoint split (c : ascii) (s : string) : list string :=
  match s with
  | EmptyString => [EmptyString]
  | String a s' =>
      if bool_decide (a = c) then EmptyString :: split c s'
      else match split c s' with
           | w :: ws => String a w :: ws
           | [] => [String a EmptyString]
           end
  end.

(** [s.lower()], on the ASCII range. *)
Definition lower_char (a : ascii) : ascii :=
  let n := nat_of_ascii a in
  if (65 <=? n)%nat && (n <=? 90)%nat then ascii_of_nat (n + 32) else a.

Fixpoint lower (s : string) : string :=
  match s with
  | EmptyString => EmptyString
  | String a s' => String (lower_char a) (lower s')
  end.

(** [p in s]. *)
Fixpoint contains (p s : string) : bool :=
  String.prefix p s ||
  match s with
  | EmptyString => false
  | String _ s' => contains p s'
  end.

Fixpoint concat (l : list string) : string :=
  match l with
  | [] => EmptyString
  | s :: l' => s +:+ concat l'
  end.

(** The string without its last character. *)
Fixpoint drop_last (s : string) : string :=
  match s with
  | EmptyString => EmptyString
  | String _ EmptyString => EmptyString
  | String a s' => String a (drop_last s')
  end.

Fixpoint repeat (c : ascii) (n : nat) : string :=
  match n with
  | O => EmptyString
  | S n' => String c (repeat c n')
  end.

End Str.

(** ** Parsed documents *)

#[warnings="-register-all"]
Inductive node :=
  | Tag (name : string) (attrs : gmap string string) (contents : list node)
  | NavigableString (text : string)
  | Comment (text : string).

(** All nodes below [n], in document order. *)
Fixpoint descendants (n : node) : list node :=
  match n with
  | Tag _ _ cs => flat_map (λ c, c :: descendants c) cs
  | _ => []
  end.

Definition is_string_node (n : node) : bool :=
  match n with
  | Tag _ _ _ => false
  | _ => true
  end.

Definition node_text (n : node) : string :=
  match n with
  | Tag _ _ _ => ""
  | NavigableString s => s
  | Comment s => s
  end.

(** [tag.get_text()]: the text nodes below the tag, concatenated; comments
    do not contribute. *)
Definition get_text (n : node) : string :=
  Str.concat (omap (λ d, match d with NavigableString s => Some s | _ => None end)
                   (descendants n)).

(** [tag.get(key)]. *)
Definition get (n : node) (key : string) : option string :=
  match n with
  | Tag _ a _ => a !! key
  | _ => None
  end.

(** [tag[key]]. *)
Definition getitem_attr (n : node) (key : string) : result string :=
  match get n key with
  | Some v => Ret v
  | None => Raise KeyError
  end.

(** How an attribute filter value is compared with a tag's attribute: a tag
    without the attribute matches a filter that is [None] or empty, a tag
    with it matches the equal string. *)
Definition attr_matches (actual wanted : option string) : bool :=
  match actual, wanted with
  | None, None => true
  | None, Some w => bool_decide (w = "")
  | Some a, Some w => bool_decide (a = w)
  | Some _, None => false
  end.

Definition tag_matches (name : string) (filters : list (string * option string))
    (n : node) : bool :=
  match n with
  | Tag nm a _ =>
      bool_decide (nm = name) && forallb (λ kv, attr_matches (a !! kv.1) kv.2) filters
  | _ => false
  end.

(** [tag.find_all(name, filters)] and [tag.find(name, filters)]. *)
Definition find_all (name : string) (filters : list (string * option string))
    (n : node) : list node :=
  filter (λ d, tag_matches name filters d) (descendants n).

Definition find (name : string) (filters : list (string * option string))
    (n : node) : option node :=
  head (find_all name filters n).

(** ** The table under construction

    [stats_table] is a Python dict: assigning to a new key appends it,
    assigning to a key already present replaces the value where the key
    first went in. *)

Abbreviation dict := (list (string * list string)).

Fixpoint dict_get (k : string) (d : dict) : option (list string) :=
  match d with
  | [] => None
  | (k', v) :: d' => if bool_decide (k' = k) then Some v else dict_get k d'
  end.

Fixpoint dict_set (k : string) (v : list string) (d : dict) : dict :=
  match d with
  | [] => [(k, v)]
  | (k', v') :: d' =>
      if bool_decide (k' = k) then (k, v) :: d' else (k', v') :: dict_set k v d'
  end.

(** [d[k]]. *)
Definition dict_getitem (k : string) (d : dict) : result (list string) :=
  match dict_get k d with
  | Some v => Ret v
  | None => Raise KeyError
  end.

(** ** The module's global names

    The names its import statements and its two [def]s bind.  A name that is
    neither here nor a builtin raises [NameError] when it is evaluated. *)

Definition module_globals : list string :=
  ["BeautifulSoup"; "List"; "Tuple"; "pd"; "random"; "requests"; "string"; "time";
   "get_all_players"; "get_table"].

Definition load_global (name : string) : result () :=
  if bool_decide (name ∈ module_globals) then Ret () else Raise NameError.

(** [lambda text: isinstance(text, Comment)]. *)
Definition is_Comment (text : node) : result bool :=
  _ ← load_global "Comment";
  Ret (match text with Comment _ => true | _ => false end).

(** [soup.find_all(string=f)]: [f] is called on every string node of the
    document, in document order, and the nodes it accepts are kept. *)
Fixpoint filter_strings (f : node → result bool) (ds : list node) : result (list node) :=
  match ds with
  | [] => Ret []
  | d :: ds' =>
      if is_string_node d then
        b ← f d;
        rest ← filter_strings f ds';
        Ret (if b : bool then d :: rest else rest)
      else filter_strings f ds'
  end.

Definition find_all_string (f : node → result bool) (soup : node) : result (list node) :=
  filter_strings f (descendants soup).

Section get_table.

(** [BeautifulSoup(markup, "html.parser")]. *)
Variable BeautifulSoup : string → node.

(** Lines 91-96: the first comment that mentions [div_id] and whose
    content, parsed, holds the container. *)
Fixpoint search_comments (div_id : string) (comments : list node) : option node :=
  match comments with
  | [] => None
  | comment :: rest =>
      if Str.contains div_id (node_text comment) then
        let comment_soup := BeautifulSoup (node_text comment) in
        match find "div" [("id", Some div_id)] comment_soup with
        | Some table_div => Some table_div
        | None => search_comments div_id rest
        end
      else search_comments div_id rest
  end.

(** Lines 87-96. *)
Definition locate_div (soup : node) (div_id : string) : result (option node) :=
  match find "div" [("id", Some div_id)] soup with
  | Some table_div => Ret (Some table_div)
  | None =>
      comments ← find_all_string is_Comment soup;
      Ret (search_comments div_id comments)
  end.

(** Lines 98-102: [None] stands for the early [return None]. *)
Definition table_parts (soup : node) (div_id : string)
    : result (option (list node * list node)) :=
  table_div ← locate_div soup div_id;
  match table_div with
  | None => Ret None
  | Some table_div =>
      match find "thead" [] table_div, find "tbody" [] table_div with
      | Some thead, Some tbody =>
          Ret (Some (find_all "th" [] thead, find_all "tr" [] tbody))
      | _, _ => Ret None
      end
  end.

End get_table.

(** [row.find(cell, {"data-stat": th.get("data-stat")}).get_text()]. *)
Definition cell_text (cell : string) (th row : node) : result string :=
  match find cell [("data-stat", get th "data-stat")] row with
  | Some c => Ret (get_text c)
  | None => Raise AttributeError
  end.

(** The inner loops, lines 108-111 and 116-119. *)
Fixpoint fill_column (cell : string) (th : node) (rows : list node) (stats_table : dict)
    : result dict :=
  match rows with
  | [] => Ret stats_table
  | row :: rows' =>
      col ← dict_getitem (get_text th) stats_table;
      v ← cell_text cell th row;
      fill_column cell th rows' (dict_set (get_text th) (col ++ [v]) stats_table)
  end.

(** The outer loop, lines 114-119. *)
Fixpoint fill_columns (ths rows : list node) (stats_table : dict) : result dict :=
  match ths with
  | [] => Ret stats_table
  | th :: ths' =>
      stats_table ← fill_column "td" th rows (dict_set (get_text th) [] stats_table);
      fill_columns ths' rows stats_table
  end.

(** Lines 104-121. *)
Definition build_table (headers rows : list node) : result dict :=
  h0 ← getitem headers 0;
  stats_table ← fill_column "th" h0 rows (dict_set (get_text h0) [] []);
  fill_columns (drop 1 headers) rows stats_table.

Definition get_table (BeautifulSoup : string → node) (soup : node) (div_id : string)
    : result (option dict) :=
  parts ← table_parts BeautifulSoup soup div_id;
  match parts with
  | None => Ret None
  | Some (headers, rows) => Some <$> build_table headers rows
  end.

(** ** Roster rows *)

(** What a cell of a roster record holds. *)
Inductive value :=
  | VStr (s : string)
  | VInt (n : Z)
  | VBool (b : bool).

Definition is_bool (v : value) : bool :=
  match v with
  | VBool _ => true
  | _ => false
  end.

(** Line 53. *)
Definition link_of (th : node) : result string :=
  if bool_decide (length (find_all "a" [] th) = 1)
  then a ← getitem (find_all "a" [] th) 0; getitem_attr a "href"
  else Ret "".

(** The body of the row loop, lines 47-56: the record appended to
    [raw_data]. *)
Definition scrape_row (row : node) : result (list value) :=
  th ← getitem (find_all "th" [] row) 0;
  let name := get_text th in
  let stats := get_text <$> find_all "td" [] row in
  link ← link_of th;
  let is_active := Z.of_nat (length (find_all "strong" [] th)) in
  c ← Str.getitem_last name;
  let is_hof := bool_decide (c = Str.star) in
  Ret ([VStr (Str.rstrip Str.star name)] ++ (VStr <$> stats)
         ++ [VStr link; VInt is_active; VBool is_hof]).

(** Lines 45-56. *)
Fixpoint scrape_rows (tr : list node) (raw_data : list (list value))
    : result (list (list value)) :=
  match tr with
  | [] => Ret raw_data
  | row :: tr' =>
      record ← scrape_row row;
      scrape_rows tr' (raw_data ++ [record])
  end.

(** ** The roster fetch *)

(** What [requests.get] does: it raises a [RequestException] (connection
    error, timeout, ...) or hands back a response. *)
Inductive http_result :=
  | RequestException
  | Response (status_code : Z) (content : string).

(** What [get_all_players] hands back: the tuple of two lists of line 33, or
    a data frame.  [DataFrame columns data] records the arguments of the
    [pd.DataFrame] call; [pd.DataFrame()] is [DataFrame [] []].  The checks
    pandas makes on the arguments are not part of the model. *)
Inductive returned :=
  | PairOfLists (a b : list (list value))
  | DataFrame (columns : list string) (data : list (list value)).

Definition is_DataFrame (r : returned) : bool :=
  match r with
  | DataFrame _ _ => true
  | PairOfLists _ _ => false
  end.

(** Where the letter loop stands: it goes on with [df_list] and with
    [headers], which is unbound until a round has assigned it, or the
    function has returned. *)
Inductive flow :=
  | Next (df_list : list (list value)) (headers : option (list string))
  | Return (r : returned).

Definition ascii_lowercase : string := "abcdefghijklmnopqrstuvwxyz".

Definition players_url (letter : ascii) : string :=
  "https://www.basketball-reference.com/players/" +:+ String letter "/".

Definition csv_path : string := "data/all_players.csv".

Section get_all_players.

(** [requests.get(url, timeout=60)]. *)
Variable requests_get : string → http_result.
(** [BeautifulSoup(markup, "html.parser")]. *)
Variable BeautifulSoup : string → node.

(** Lines 28-33: the content of the page, or [None] when the [except]
    clause is taken.  [raise_for_status] raises for the status codes 400
    to 599. *)
Definition fetch (url : string) : option string :=
  match requests_get url with
  | RequestException => None
  | Response status_code content =>
      if (400 <=? status_code)%Z && (status_code <? 600)%Z then None else Some content
  end.

(** One round of the loop, lines 25-61. *)
Definition letter_step (letter : ascii) (df_list : list (list value)) : result flow :=
  match fetch (players_url letter) with
  | None => Ret (Return (PairOfLists [] []))
  | Some content =>
      let soup := BeautifulSoup content in
      match find_all "tr" [] soup with
      | [] => Ret (Return (DataFrame [] []))
      | tr0 :: tr =>
          let headers := Str.split Str.newline (Str.strip (get_text tr0)) in
          raw_data ← scrape_rows tr [];
          Ret (Next (df_list ++ raw_data) (Some headers))
      end
  end.

(** The loop, lines 24-61. *)
Fixpoint run_letters (alphabet : list ascii) (df_list : list (list value))
    (headers : option (list string)) : result flow :=
  match alphabet with
  | [] => Ret (Next df_list headers)
  | letter :: rest =>
      f ← letter_step letter df_list;
      match f with
      | Return r => Ret (Return r)
      | Next df_list headers => run_letters rest df_list headers
      end
  end.

(** Lines 21-71.  The second component of the result is the file written
    by [to_csv], if any. *)
Definition get_all_players (save_results : bool) : result (returned * option string) :=
  f ← run_letters (String.list_ascii_of_string ascii_lowercase) [] None;
  match f with
  | Return r => Ret (r, None)
  | Next df_list None => Raise UnboundLocalError
  | Next df_list (Some headers) =>
      let df := DataFrame ((Str.lower <$> headers) ++ ["url"; "is_active"; "is_hof"])
                          df_list in
      Ret (df, if save_results then Some csv_path else None)
  end.

End get_all_players.

(** ** Reading a roster record *)

(** The row's name cell, [row.find_all("th")[0]]. *)
Definition name_cell (row : node) : option node := find_all "th" [] row !! 0.

Definition record_name (record : list value) : option value := head record.
Definition record_url (record : list value) : option value :=
  record !! (length record - 3).
Definition record_is_active (record : list value) : option value :=
  record !! (length record - 2).
Definition record_is_hof (record : list value) : option value :=
  record !! (length record - 1).


(** ** Columns, as the loops of [get_table] fill them *)

(** The cell tag looked up for the header cell at position [j]: the first
    column is read from [th] cells, the others from [td] cells. *)
Definition cell_tag (j : nat) : string :=
  match j with
  | 0 => "th"
  | S _ => "td"
  end.

(** The cell of [row] the code reads for header cell [th]. *)
Definition lookup_cell (cell : string) (th row : node) : option node :=
  find cell [("data-stat", get th "data-stat")] row.

(** The values of one column, row by row. *)
Fixpoint column (cell : string) (th : node) (rows : list node) : result (list string) :=
  match rows with
  | [] => Ret []
  | row :: rows' =>
      v ← cell_text cell th row;
      vs ← column cell th rows';
      Ret (v :: vs)
  end.

Fixpoint td_columns (ths rows : list node) : result (list (string * list string)) :=
  match ths with
  | [] => Ret []
  | th :: ths' =>
      vs ← column "td" th rows;
      cols ← td_columns ths' rows;
      Ret ((get_text th, vs) :: cols)
  end.

(** One (key, values) pair per header cell, in header order. *)
Definition header_columns (headers rows : list node)
    : result (list (string * list string)) :=
  match headers with
  | [] => Raise IndexError
  | h0 :: ths =>
      v0 ← column "th" h0 rows;
      cols ← td_columns ths rows;
      Ret ((get_text h0, v0) :: cols)
  end.

(** Storing the pairs in a dict, one after the other. *)
Definition table_of_columns (cols : list (string * list string)) : dict :=
  foldl (λ d kv, dict_set kv.1 kv.2 d) [] cols.

(** The keys of a list without their later repetitions. *)
Fixpoint first_occurrences (ks : list string) : list string :=
  match ks with
  | [] => []
  | k :: ks' => k :: filter (λ k', k' ≠ k) (first_occurrences ks')
  end.

(** Two rows that differ in the order of their cells only. *)
Inductive reordered : node → node → Prop :=
  | reordered_tag name attrs cs cs' :
      cs ≡ₚ cs' → reordered (Tag name attrs cs) (Tag name attrs cs').

(** The [data-stat] keys of the [cell] tags of a row; a cell without the
    attribute counts as one with the empty key, as both answer a lookup of
    the empty key. *)
Definition cell_keys (cell : string) (row : node) : list string :=
  (λ c, default "" (get c "data-stat")) <$> find_all cell [] row.

(** No two header-tagged cells and no two data-tagged cells of the row carry
    the same key. *)
Definition distinct_keys (row : node) : Prop :=
  NoDup (cell_keys "th" row) ∧ NoDup (cell_keys "td" row).

(** ** The pages of a roster fetch *)

(** The column names read off a page's first row, line 42. *)
Definition page_header (tr0 : node) : list string :=
  Str.split Str.newline (Str.strip (get_text tr0)).

(** The columns of the final data frame, line 65. *)
Definition frame_columns (headers : list string) : list string :=
  (Str.lower <$> headers) ++ ["url"; "is_active"; "is_hof"].

(** [page] is the header row and the data rows served for [letter]. *)
Definition is_page (requests_get : string → http_result) (BeautifulSoup : string → node)
    (letter : ascii) (page : node * list node) : Prop :=
  ∃ content,
    fetch requests_get (players_url letter) = Some content ∧
    find_all "tr" [] (BeautifulSoup content) = page.1 :: page.2.

Definition lowercase_letters : list ascii := String.list_ascii_of_string ascii_lowercase.

(** ** Characters of a string *)

Fixpoint chars (s : string) : list ascii :=
  match s with
  | EmptyString => []
  | String a s' => a :: chars s'
  end.

Definition is_upper (a : ascii) : bool :=
  (65 <=? nat_of_ascii a)%nat && (nat_of_ascii a <=? 90)%nat.

(** ** The value read for a header cell in a row *)

Definition cell_value (j : nat) (h row : node) : string :=
  from_option get_text "" (lookup_cell (cell_tag j) h row).

(** [headers] after the loop has gone through [pages]: the names of the last
    page, or what it was before when there was no page. *)
Definition loop_headers (headers : option (list string)) (pages : list (node * list node))
    : option (list string) :=
  match last pages with
  | Some page => Some (page_header page.1)
  | None => headers
  end.

(** [c.join(l)] for a one-character separator. *)
Fixpoint join (c : ascii) (l : list string) : string :=
  match l with
  | [] => ""
  | [w] => w
  | w :: l' => w +:+ String c (join c l')
  end.

(** The container, its sections and what they hold, found in the document
    itself. *)
Definition located (soup : node) (div_id : string) (headers rows : list node) : Prop :=
  ∃ table_div thead tbody,
    find "div" [("id", Some div_id)] soup = Some table_div ∧
    find "thead" [] table_div = Some thead ∧
    find "tbody" [] table_div = Some tbody ∧
    headers = find_all "th" [] thead ∧ rows = find_all "tr" [] tbody.

(** ** Sample rows, pages and documents *)

Definition text_tag (name : string) (txt : string) : node :=
  Tag name ∅ [NavigableString txt].

(** An active hall-of-fame player: bold, linked, starred. *)
Definition row_active_hof : node :=
  Tag "tr" ∅
    [Tag "th" {[ "data-stat" := "player" ]}
       [Tag "strong" ∅
          [Tag "a" {[ "href" := "/players/a/abdulka01.html" ]}
             [NavigableString "Kareem Abdul-Jabbar*"]]];
     text_tag "td" "1970"; text_tag "td" "1989"].

Definition th_active_hof : node :=
  Tag "th" {[ "data-stat" := "player" ]}
    [Tag "strong" ∅
       [Tag "a" {[ "href" := "/players/a/abdulka01.html" ]}
          [NavigableString "Kareem Abdul-Jabbar*"]]].

Definition record_active_hof : list value :=
  [VStr "Kareem Abdul-Jabbar"; VStr "1970"; VStr "1989";
   VStr "/players/a/abdulka01.html"; VInt 1; VBool true].

(** A name cell that ends in two marker characters. *)
Definition row_two_stars : node :=
  Tag "tr" ∅
    [Tag "th" ∅ [Tag "a" {[ "href" := "/players/s/starbo01.html" ]}
                   [NavigableString "Bo Star**"]];
     text_tag "td" "1988"].

(** A name cell with no text. *)
Definition th_empty_name : node := Tag "th" ∅ [].

Definition row_empty_name : node :=
  Tag "tr" ∅ [th_empty_name; text_tag "td" "1990"].

(** A retired player with two links in the name cell. *)
Definition th_two_links : node :=
  Tag "th" ∅
    [Tag "a" {[ "href" := "/players/b/barryri01.html" ]} [NavigableString "Rick Barry"];
     Tag "a" {[ "href" := "/players/b/barryri01/notes.html" ]} [NavigableString " (notes)"]].

Definition row_two_links : node :=
  Tag "tr" ∅ [th_two_links; text_tag "td" "1966"].

Definition record_two_links : list value :=
  [VStr "Rick Barry (notes)"; VStr "1966"; VStr ""; VInt 0; VBool false].

Definition nl : node := NavigableString (String Str.newline "").

(** A roster page: the header row, then two players. *)
Definition roster_page : node :=
  Tag "[document]" ∅
    [Tag "table" ∅
       [Tag "tr" ∅ [nl; text_tag "th" "Player"; nl; text_tag "th" "From"; nl;
                   text_tag "th" "To"; nl];
        row_active_hof;
        Tag "tr" ∅ [th_two_links; text_tag "td" "1966"; text_tag "td" "1980"]]].

(** A roster page with a row whose name cell is empty. *)
Definition roster_page_empty_name : node :=
  Tag "[document]" ∅
    [Tag "table" ∅
       [Tag "tr" ∅ [text_tag "th" "Player"; nl; text_tag "th" "From"];
        row_empty_name]].

Definition header_row_empty_name : node :=
  Tag "tr" ∅ [text_tag "th" "Player"; nl; text_tag "th" "From"].

(** A server that answers for the letter [a] and fails with status 503 for
    every other letter. *)
Definition only_letter_a (url : string) : http_result :=
  if bool_decide (url = players_url "a"%char)
  then Response 200 "<table>...</table>"
  else Response 503 "".

Definition always_ok (url : string) : http_result := Response 200 "<table>...</table>".

Definition th_cell (key txt : string) : node :=
  Tag "th" {[ "data-stat" := key ]} [NavigableString txt].
Definition td_cell (key txt : string) : node :=
  Tag "td" {[ "data-stat" := key ]} [NavigableString txt].

Definition stat_headers : list node :=
  [th_cell "season" "Season"; th_cell "age" "Age"; th_cell "pts" "PTS"].

Definition per_game_rows : list node :=
  [Tag "tr" ∅ [th_cell "season" "2001-02"; td_cell "age" "21"; td_cell "pts" "10.1"];
   Tag "tr" ∅ [th_cell "season" "2002-03"; td_cell "age" "22"; td_cell "pts" "12.5"]].

(** The same rows with their cells in reverse order. *)
Definition per_game_rows_reversed : list node :=
  [Tag "tr" ∅ [td_cell "pts" "10.1"; td_cell "age" "21"; th_cell "season" "2001-02"];
   Tag "tr" ∅ [td_cell "pts" "12.5"; td_cell "age" "22"; th_cell "season" "2002-03"]].

(** The second row lacks its [age] cell. *)
Definition row_without_age : node :=
  Tag "tr" ∅ [th_cell "season" "2002-03"; td_cell "pts" "12.5"].

Definition per_game_rows_missing_cell : list node :=
  [Tag "tr" ∅ [th_cell "season" "2001-02"; td_cell "age" "21"; td_cell "pts" "10.1"];
   row_without_age].

(** The container of a table with three columns and two rows. *)
Definition stat_div (rows : list node) : node :=
  Tag "div" {[ "id" := "per_game" ]}
    [Tag "table" ∅ [Tag "thead" ∅ [Tag "tr" ∅ stat_headers]; Tag "tbody" ∅ rows]].

Definition per_game_div : node := stat_div per_game_rows.

Definition player_page : node :=
  Tag "[document]" ∅ [text_tag "h1" "Some Player"; per_game_div].

Definition player_page_reversed : node :=
  Tag "[document]" ∅ [text_tag "h1" "Some Player"; stat_div per_game_rows_reversed].

Definition player_page_missing_cell : node :=
  Tag "[document]" ∅ [stat_div per_game_rows_missing_cell].

(** Two header cells share the visible text [Tm]. *)
Definition duplicate_headers : list node :=
  [th_cell "season" "Season"; th_cell "team_from" "Tm"; th_cell "team_to" "Tm"].

Definition player_page_duplicate_header : node :=
  Tag "[document]" ∅
    [Tag "div" {[ "id" := "transactions" ]}
       [Tag "table" ∅
          [Tag "thead" ∅ [Tag "tr" ∅ duplicate_headers];
           Tag "tbody" ∅
             [Tag "tr" ∅ [th_cell "season" "2001-02"; td_cell "team_from" "BOS";
                         td_cell "team_to" "LAL"];
              Tag "tr" ∅ [th_cell "season" "2002-03"; td_cell "team_from" "LAL";
                         td_cell "team_to" "MIA"]]]]].

(** The container appears in a comment only. *)
Definition commented_markup : string :=
  "<div id='per_game'><table><thead>...</thead><tbody>...</tbody></table></div>".

Definition player_page_commented : node :=
  Tag "[document]" ∅ [Tag "div" {[ "id" := "all_per_game" ]} [Comment commented_markup]].

(** A parser that knows the markup of the comment above. *)
Definition sample_parser (markup : string) : node :=
  if bool_decide (markup = commented_markup)
  then Tag "[document]" ∅ [per_game_div]
  else Tag "[document]" ∅ [].

(** A page with neither the container nor a comment. *)
Definition page_without_table : node :=
  Tag "[document]" ∅ [Tag "html" ∅ [Tag "body" ∅ [text_tag "p" "No statistics here."]]].

(** The container is there but has no body section. *)
Definition page_without_tbody : node :=
  Tag "[document]" ∅
    [Tag "div" {[ "id" := "per_game" ]}
       [Tag "table" ∅ [Tag "thead" ∅ [Tag "tr" ∅ stat_headers]]]].

(** A server with a roster for the letter [a] and a page without a table
    for every other letter. *)
Definition rows_for_a_only (url : string) : http_result :=
  if bool_decide (url = players_url "a"%char)
  then Response 200 "<table>...</table>"
  else Response 200 "<p>nothing</p>".

Definition parse_roster_or_nothing (markup : string) : node :=
  if bool_decide (markup = "<table>...</table>")
  then roster_page
  else Tag "[document]" ∅ [text_tag "p" "nothing"].

Definition roster_header_row : node :=
  Tag "tr" ∅ [nl; text_tag "th" "Player"; nl; text_tag "th" "From"; nl;
              text_tag "th" "To"; nl].

Definition roster_data_rows : list node :=
  [row_active_hof;
   Tag "tr" ∅ [th_two_links; text_tag "td" "1966"; text_tag "td" "1980"]].

Definition roster_records : list (list value) :=
  [record_active_hof;
   [VStr "Rick Barry (notes)"; VStr "1966"; VStr "1980"; VStr ""; VInt 0; VBool false]].

(** A server that answers for [a], fails with status 503 for [b] and is
    unreachable for every other letter. *)
Definition unreachable_after_b (url : string) : http_result :=
  if bool_decide (url = players_url "a"%char) then Response 200 "<table>...</table>"
  else if bool_decide (url = players_url "b"%char) then Response 503 ""
  else RequestException.

(** The container with header cells and an empty body section. *)
Definition player_page_no_rows : node := Tag "[document]" ∅ [stat_div []].

(** * Properties *)

(** ** The error monad *)

Lemma bind_Ret {A B} (m : result A) (f : A → result B) (b : B) :
  m ≫= f = Ret b → ∃ a, m = Ret a ∧ f a = Ret b.
Proof. destruct m as [a|e]; simpl; [eauto | discriminate]. Qed.

Lemma bind_Raise {A B} (m : result A) (f : A → result B) (e : exn) :
  m ≫= f = Raise e → m = Raise e ∨ ∃ a, m = Ret a ∧ f a = Raise e.
Proof. destruct m as [a|e']; simpl; [eauto | intros [= ->]; auto]. Qed.

Lemma getitem_Ret {A} (l : list A) i a : getitem l i = Ret a → l !! i = Some a.
Proof. unfold getitem. destruct (l !! i); congruence. Qed.

(** ** Strings *)

Lemma string_app_cons a (s t : string) : String a s +:+ t = String a (s +:+ t).
Proof. reflexivity. Qed.

Lemma string_app_empty_l (s : string) : "" +:+ s = s.
Proof. reflexivity. Qed.

Lemma string_app_empty_r (s : string) : s +:+ "" = s.
Proof. induction s as [|a s IH]; [done | by rewrite string_app_cons, IH]. Qed.

Lemma last_cons_nonempty a b s : Str.last (String a (String b s)) = Str.last (String b s).
Proof. reflexivity. Qed.

Lemma last_app_repeat (s : string) c n : Str.last (s +:+ Str.repeat c (S n)) = Some c.
Proof.
  induction s as [|a s IH].
  - rewrite string_app_empty_l. induction n as [|n IHn]; [reflexivity | exact IHn].
  - rewrite string_app_cons.
    destruct (s +:+ Str.repeat c (S n)) eqn:E; [discriminate IH | exact IH].
Qed.

(** [rstrip] removes a run of the character at the end, and all of it. *)
Lemma rstrip_spec c s :
  ∃ n, s = Str.rstrip c s +:+ Str.repeat c n ∧ Str.last (Str.rstrip c s) ≠ Some c.
Proof.
  induction s as [|a s (n & Hs & Hlast)]; [by exists 0 |].
  simpl. destruct (Str.rstrip c s) as [|b r] eqn:Hr.
  - rewrite string_app_empty_l in Hs. case_bool_decide as Hac.
    + subst a. exists (S n). rewrite string_app_empty_l. simpl. by rewrite <- Hs.
    + exists n. rewrite string_app_cons, string_app_empty_l, <- Hs.
      split; [done | simpl; congruence].
  - exists n. split; [by rewrite string_app_cons, <- Hs | exact Hlast].
Qed.

Lemma rstrip_unchanged c s : Str.last s ≠ Some c → Str.rstrip c s = s.
Proof.
  intros Hne. destruct (rstrip_spec c s) as ([|n] & Hs & _).
  - by rewrite string_app_empty_r in Hs.
  - rewrite Hs, last_app_repeat in Hne. done.
Qed.

(** ** Roster rows *)

Lemma scrape_row_Ret row record :
  scrape_row row = Ret record →
  ∃ th link c,
    name_cell row = Some th ∧ link_of th = Ret link ∧ Str.last (get_text th) = Some c ∧
    record = VStr (Str.rstrip Str.star (get_text th))
               :: (VStr <$> (get_text <$> find_all "td" [] row))
               ++ [VStr link; VInt (Z.of_nat (length (find_all "strong" [] th)));
                   VBool (bool_decide (c = Str.star))].
Proof.
  unfold scrape_row. intros H.
  apply bind_Ret in H as (th & Hth & H). apply getitem_Ret in Hth.
  apply bind_Ret in H as (link & Hlink & H).
  apply bind_Ret in H as (c & Hc & H).
  unfold Str.getitem_last in Hc. destruct (Str.last (get_text th)) as [c'|] eqn:Hl; [|done].
  injection Hc as ->. injection H as <-. by exists th, link, c.
Qed.

Lemma record_fields (x : value) (mid : list value) (u a h : value) :
  let record := x :: mid ++ [u; a; h] in
  record_name record = Some x ∧ record_url record = Some u ∧
  record_is_active record = Some a ∧ record_is_hof record = Some h.
Proof.
  intros record. unfold record_name, record_url, record_is_active, record_is_hof.
  assert (Hlen : length record = length mid + 4).
  { unfold record. simpl. rewrite length_app. simpl. lia. }
  rewrite Hlen. split_and!; [done | | |].
  - apply (list_lookup_middle (x :: mid) [a; h] u). simpl. lia.
  - replace record with ((x :: mid ++ [u]) ++ a :: [h])
      by (unfold record; by simplify_list_eq).
    apply list_lookup_middle. simpl. rewrite length_app. simpl. lia.
  - replace record with ((x :: mid ++ [u; a]) ++ h :: [])
      by (unfold record; by simplify_list_eq).
    apply list_lookup_middle. simpl. rewrite length_app. simpl. lia.
Qed.

Lemma link_of_Raise th e : link_of th = Raise e → e = KeyError.
Proof.
  unfold link_of. case_bool_decide as Hlen; [|done].
  destruct (find_all "a" [] th) as [|a [|??]]; simplify_eq/=.
  unfold getitem_attr. destruct (get a "href"); congruence.
Qed.

Lemma scrape_row_Raise row e : scrape_row row = Raise e → e = IndexError ∨ e = KeyError.
Proof.
  unfold scrape_row. intros H.
  apply bind_Raise in H as [H | (th & _ & H)].
  { unfold getitem in H. destruct (_ !! _); simplify_eq. by left. }
  apply bind_Raise in H as [H | (link & _ & H)].
  { right. by eapply link_of_Raise. }
  apply bind_Raise in H as [H | (c & _ & H)]; [|done].
  unfold Str.getitem_last in H. destruct (Str.last _); simplify_eq. by left.
Qed.

(** A row whose name cell has no text is never turned into a record: the
    subscript [name[-1]] raises, unless the link extraction raised before. *)
Lemma scrape_row_empty_name row th :
  name_cell row = Some th → get_text th = "" →
  scrape_row row = Raise (match link_of th with Raise e => e | Ret _ => IndexError end).
Proof.
  unfold name_cell, scrape_row, getitem. intros -> Hname. simpl.
  destruct (link_of th) as [link|e]; simpl; [|done].
  by rewrite Hname.
Qed.

Lemma tag_matches_name name n :
  tag_matches name [] n ↔ ∃ a cs, n = Tag name a cs.
Proof.
  destruct n as [nm a cs| |]; simpl.
  - rewrite andb_true_r. split.
    + intros ->%bool_decide_unpack. eauto.
    + intros (? & ? & [= -> _ _]). by apply bool_decide_pack.
  - split; [done | by intros (? & ? & ?)].
  - split; [done | by intros (? & ? & ?)].
Qed.

Lemma find_all_nonempty name n :
  0 < length (find_all name [] n) ↔ ∃ a cs, Tag name a cs ∈ descendants n.
Proof.
  unfold find_all. split.
  - destruct (filter _ _) as [|d l] eqn:E; [simpl; lia | intros _].
    assert (Hd : d ∈ filter (λ d, tag_matches name [] d) (descendants n))
      by (rewrite E; left).
    apply list_elem_of_filter in Hd as [(a & cs & ->)%tag_matches_name Hin]. eauto.
  - intros (a & cs & Hin).
    assert (Hd : Tag name a cs ∈ filter (λ d, tag_matches name [] d) (descendants n)).
    { apply list_elem_of_filter. split; [apply tag_matches_name; eauto | done]. }
    destruct (filter _ _); [by apply elem_of_nil in Hd | simpl; lia].
Qed.

(** C6 (as amended): a row whose name cell text ends in [*] is recorded with
    [is_hof = True] and with the text stripped of every [*] at its end, at
    least one; a row whose text does not end in [*] is recorded with
    [is_hof = False] and with the text as it is. *)
Theorem hof_flag_and_stored_name row record th :
  scrape_row row = Ret record → name_cell row = Some th →
  ∃ stored n b,
    record_name record = Some (VStr stored) ∧ record_is_hof record = Some (VBool b) ∧
    stored = Str.rstrip Str.star (get_text th) ∧
    get_text th = stored +:+ Str.repeat Str.star n ∧
    Str.last stored ≠ Some Str.star ∧
    (Str.last (get_text th) = Some Str.star → b = true ∧ 0 < n) ∧
    (Str.last (get_text th) ≠ Some Str.star → b = false ∧ stored = get_text th).
Proof.
  intros (th' & link & c & Hth & _ & Hc & ->)%scrape_row_Ret Hcell.
  assert (th' = th) as -> by congruence.
  destruct (rstrip_spec Str.star (get_text th)) as (n & Hn & Hlast).
  exists (Str.rstrip Str.star (get_text th)), n, (bool_decide (c = Str.star)).
  pose proof (record_fields (VStr (Str.rstrip Str.star (get_text th)))
                (VStr <$> (get_text <$> find_all "td" [] row)) (VStr link)
                (VInt (Z.of_nat (length (find_all "strong" [] th))))
                (VBool (bool_decide (c = Str.star)))) as (Hname & _ & _ & Hhof).
  split_and!; try done.
  - intros Hstar. rewrite Hc in Hstar. injection Hstar as ->.
    split; [by apply bool_decide_eq_true |].
    destruct n; [|lia]. rewrite string_app_empty_r in Hn. congruence.
  - intros Hstar. split.
    + apply bool_decide_eq_false. congruence.
    + by apply rstrip_unchanged.
Qed.

Lemma hof_flag_and_stored_name_witness :
  scrape_row row_active_hof = Ret record_active_hof ∧
  name_cell row_active_hof = Some th_active_hof ∧
  ∃ stored n b,
    record_name record_active_hof = Some (VStr stored) ∧
    record_is_hof record_active_hof = Some (VBool b) ∧
    stored = Str.rstrip Str.star (get_text th_active_hof) ∧
    get_text th_active_hof = stored +:+ Str.repeat Str.star n ∧
    Str.last stored ≠ Some Str.star ∧
    (Str.last (get_text th_active_hof) = Some Str.star → b = true ∧ 0 < n) ∧
    (Str.last (get_text th_active_hof) ≠ Some Str.star →
     b = false ∧ stored = get_text th_active_hof).
Proof.
  split; [reflexivity |]. split; [reflexivity |].
  apply (hof_flag_and_stored_name row_active_hof record_active_hof th_active_hof);
    reflexivity.
Defined.

(** C6, as it is worded, fails on a name that ends in two [*]: both are
    removed, so the stored name is not the cell text less its last
    character. *)
Lemma hof_two_stars_counterexample :
  ∃ th,
    name_cell row_two_stars = Some th ∧ get_text th = "Bo Star**" ∧
    Str.last (get_text th) = Some Str.star ∧
    scrape_row row_two_stars
      = Ret [VStr "Bo Star"; VStr "1988"; VStr "/players/s/starbo01.html";
             VInt 0; VBool true] ∧
    Str.drop_last (get_text th) = "Bo Star*" ∧
    VStr "Bo Star" ≠ VStr (Str.drop_last (get_text th)).
Proof.
  eexists. split; [reflexivity |]. split_and!; try reflexivity. by vm_compute.
Qed.

(** C7 (as amended): the record's [is_hof] is a boolean; its [is_active] is
    the number of [strong] elements in the name cell, an integer, which is
    positive exactly when the cell holds at least one such element. *)
Theorem active_count_and_hof_flag row record th :
  scrape_row row = Ret record → name_cell row = Some th →
  ∃ b,
    record_is_hof record = Some (VBool b) ∧
    record_is_active record = Some (VInt (Z.of_nat (length (find_all "strong" [] th)))) ∧
    ((0 < Z.of_nat (length (find_all "strong" [] th)))%Z
     ↔ ∃ a cs, Tag "strong" a cs ∈ descendants th).
Proof.
  intros (th' & link & c & Hth & _ & Hc & ->)%scrape_row_Ret Hcell.
  assert (th' = th) as -> by congruence.
  pose proof (record_fields (VStr (Str.rstrip Str.star (get_text th)))
                (VStr <$> (get_text <$> find_all "td" [] row)) (VStr link)
                (VInt (Z.of_nat (length (find_all "strong" [] th))))
                (VBool (bool_decide (c = Str.star)))) as (_ & _ & Hact & Hhof).
  exists (bool_decide (c = Str.star)). split_and!; [done | done |].
  rewrite <- find_all_nonempty. lia.
Qed.

Lemma active_count_and_hof_flag_witness :
  scrape_row row_active_hof = Ret record_active_hof ∧
  name_cell row_active_hof = Some th_active_hof ∧
  ∃ b,
    record_is_hof record_active_hof = Some (VBool b) ∧
    record_is_active record_active_hof
      = Some (VInt (Z.of_nat (length (find_all "strong" [] th_active_hof)))) ∧
    ((0 < Z.of_nat (length (find_all "strong" [] th_active_hof)))%Z
     ↔ ∃ a cs, Tag "strong" a cs ∈ descendants th_active_hof).
Proof.
  split; [reflexivity |]. split; [reflexivity |].
  apply (active_count_and_hof_flag row_active_hof record_active_hof th_active_hof);
    reflexivity.
Defined.

(** C7, as it is worded, fails on every row: [is_active] is the integer
    [len(th.find_all("strong"))], not a boolean. *)
Lemma is_active_not_boolean_counterexample :
  scrape_row row_active_hof = Ret record_active_hof ∧
  record_is_active record_active_hof = Some (VInt 1) ∧
  is_bool (VInt 1) = false.
Proof. split_and!; reflexivity. Qed.

Lemma last_nonempty s : s ≠ "" → ∃ c, Str.last s = Some c.
Proof.
  induction s as [|a s IH]; [done |]. intros _. destruct s as [|b s]; [by exists a |].
  destruct IH as [c Hc]; [done |]. exists c. by rewrite last_cons_nonempty.
Qed.

(** The record of a row whose three subscripts succeed. *)
Lemma scrape_row_eval row th link c :
  name_cell row = Some th → link_of th = Ret link → Str.last (get_text th) = Some c →
  scrape_row row
  = Ret (VStr (Str.rstrip Str.star (get_text th))
           :: (VStr <$> (get_text <$> find_all "td" [] row))
           ++ [VStr link; VInt (Z.of_nat (length (find_all "strong" [] th)));
               VBool (bool_decide (c = Str.star))]).
Proof.
  unfold name_cell, scrape_row, getitem, Str.getitem_last.
  intros -> Hlink Hc. simpl. rewrite Hlink. simpl. by rewrite Hc.
Qed.

Lemma scrape_row_url row th link :
  name_cell row = Some th → get_text th ≠ "" → link_of th = Ret link →
  ∃ record, scrape_row row = Ret record ∧ record_url record = Some (VStr link).
Proof.
  intros Hth Hname Hlink. destruct (last_nonempty _ Hname) as [c Hc].
  eexists. split; [by apply (scrape_row_eval row th link c) |].
  by destruct (record_fields (VStr (Str.rstrip Str.star (get_text th)))
                 (VStr <$> (get_text <$> find_all "td" [] row)) (VStr link)
                 (VInt (Z.of_nat (length (find_all "strong" [] th))))
                 (VBool (bool_decide (c = Str.star)))) as (_ & Hurl & _ & _).
Qed.

(** C8: a row whose name cell has text and exactly one hyperlink, with a
    target, gives a record whose link is that target; a row whose name cell
    has text and no hyperlink or several gives a record whose link is the
    empty string; and every record a row gives has its link set in this
    way. *)
Theorem link_extraction row th :
  name_cell row = Some th →
  (∀ a href,
     get_text th ≠ "" → find_all "a" [] th = [a] → get a "href" = Some href →
     ∃ record, scrape_row row = Ret record ∧ record_url record = Some (VStr href)) ∧
  (get_text th ≠ "" → length (find_all "a" [] th) ≠ 1 →
   ∃ record, scrape_row row = Ret record ∧ record_url record = Some (VStr "")) ∧
  (∀ record,
     scrape_row row = Ret record →
     (∀ a, find_all "a" [] th = [a] →
           ∃ href, get a "href" = Some href ∧ record_url record = Some (VStr href)) ∧
     (length (find_all "a" [] th) ≠ 1 → record_url record = Some (VStr ""))).
Proof.
  intros Hcell. split_and!.
  - intros a href Hname Ha Hhref. apply (scrape_row_url row th); [done | done |].
    unfold link_of, getitem_attr. rewrite Ha. simpl. by rewrite Hhref.
  - intros Hname Hne. apply (scrape_row_url row th); [done | done |].
    unfold link_of. by rewrite bool_decide_eq_false_2.
  - intros record (th' & link & c & Hth & Hlink & Hc & ->)%scrape_row_Ret.
    assert (th' = th) as -> by congruence.
    pose proof (record_fields (VStr (Str.rstrip Str.star (get_text th)))
                  (VStr <$> (get_text <$> find_all "td" [] row)) (VStr link)
                  (VInt (Z.of_nat (length (find_all "strong" [] th))))
                  (VBool (bool_decide (c = Str.star)))) as (_ & Hurl & _ & _).
    unfold link_of in Hlink. split.
    + intros a Ha. rewrite Ha in Hlink. simpl in Hlink.
      unfold getitem_attr in Hlink. destruct (get a "href") as [href|]; [|done].
      injection Hlink as ->. eauto.
    + intros Hne. rewrite bool_decide_eq_false_2 in Hlink by done.
      injection Hlink as <-. done.
Qed.

(** The one-link row gives its target, the two-link row the empty string. *)
Lemma link_extraction_witness :
  (name_cell row_active_hof = Some th_active_hof ∧
   get_text th_active_hof ≠ "" ∧
   find_all "a" [] th_active_hof
     = [Tag "a" {[ "href" := "/players/a/abdulka01.html" ]}
          [NavigableString "Kareem Abdul-Jabbar*"]] ∧
   get (Tag "a" {[ "href" := "/players/a/abdulka01.html" ]}
          [NavigableString "Kareem Abdul-Jabbar*"]) "href"
     = Some "/players/a/abdulka01.html" ∧
   ∃ record, scrape_row row_active_hof = Ret record ∧
             record_url record = Some (VStr "/players/a/abdulka01.html")) ∧
  (name_cell row_two_links = Some th_two_links ∧
   get_text th_two_links ≠ "" ∧
   length (find_all "a" [] th_two_links) ≠ 1 ∧
   ∃ record, scrape_row row_two_links = Ret record ∧
             record_url record = Some (VStr "")).
Proof.
  split.
  - split; [reflexivity |]. split; [done |]. split; [reflexivity |].
    split; [reflexivity |].
    apply (proj1 (link_extraction row_active_hof th_active_hof eq_refl)
             (Tag "a" {[ "href" := "/players/a/abdulka01.html" ]}
                [NavigableString "Kareem Abdul-Jabbar*"])
             "/players/a/abdulka01.html"); [done | reflexivity | reflexivity].
  - split; [reflexivity |]. split; [done |].
    assert (Hne : length (find_all "a" [] th_two_links) ≠ 1) by (vm_compute; lia).
    split; [exact Hne |].
    apply (proj1 (proj2 (link_extraction row_two_links th_two_links eq_refl)));
      [done | exact Hne].
Defined.

(** The one-link case on the sample row. *)
Example link_extraction_one_link :
  find_all "a" [] th_active_hof
    = [Tag "a" {[ "href" := "/players/a/abdulka01.html" ]}
         [NavigableString "Kareem Abdul-Jabbar*"]] ∧
  record_url record_active_hof = Some (VStr "/players/a/abdulka01.html").
Proof. split; reflexivity. Qed.

(** A single hyperlink without a target is not recorded with an empty link:
    the subscript raises. *)
Example link_without_href_raises :
  scrape_row (Tag "tr" ∅ [Tag "th" ∅ [Tag "a" ∅ [NavigableString "Nobody"]]])
    = Raise KeyError.
Proof. reflexivity. Qed.

(** ** The roster fetch *)

Lemma fetch_None get url :
  fetch get url = None ↔
  get url = RequestException ∨
  ∃ status content, get url = Response status content ∧ (400 ≤ status < 600)%Z.
Proof.
  unfold fetch. destruct (get url) as [|status content]; [split; [auto | done] |].
  split.
  - intros H. right. exists status, content. split; [done |].
    destruct (400 <=? status)%Z eqn:H1, (status <? 600)%Z eqn:H2; simpl in H; try done.
    lia.
  - intros [? | (s & c & [= <- <-] & Hr)]; [done |].
    rewrite (proj2 (Z.leb_le _ _)), (proj2 (Z.ltb_lt _ _)) by lia. done.
Qed.

Lemma run_letters_app get parser pre post df hs :
  run_letters get parser (pre ++ post) df hs =
  f ← run_letters get parser pre df hs;
  match f with
  | Return r => Ret (Return r)
  | Next df' hs' => run_letters get parser post df' hs'
  end.
Proof.
  revert df hs. induction pre as [|l pre IH]; intros df hs; simpl; [done |].
  destruct (letter_step get parser l df) as [[df' hs'|r]|e]; simpl; [apply IH | done | done].
Qed.

Lemma scrape_rows_Raise tr raw_data row e :
  row ∈ tr → scrape_row row = Raise e →
  scrape_rows tr raw_data = Raise IndexError ∨ scrape_rows tr raw_data = Raise KeyError.
Proof.
  intros Hin Hrow. revert raw_data.
  induction tr as [|r tr IH]; intros raw_data; [by apply elem_of_nil in Hin |].
  simpl. destruct (scrape_row r) as [record|e'] eqn:Hr; simpl.
  - apply IH. apply elem_of_cons in Hin as [-> | Hin]; [congruence | done].
  - apply scrape_row_Raise in Hr as [-> | ->]; auto.
Qed.

Lemma scrape_rows_records tr raw_data out :
  scrape_rows tr raw_data = Ret out →
  ∃ records, out = raw_data ++ records ∧
             Forall2 (λ row record, scrape_row row = Ret record) tr records.
Proof.
  revert raw_data. induction tr as [|r tr IH]; intros raw_data; simpl.
  - intros [= <-]. exists []. by rewrite app_nil_r.
  - intros (record & Hr & (records & -> & Hall)%IH)%bind_Ret.
    exists (record :: records). split; [by rewrite <- app_assoc | by constructor].
Qed.

(** C1: when the request for a letter fails, the loop is left at once and
    the function hands back the tuple of two empty lists of line 33: the rows
    of the letters before are dropped and no later letter is fetched, but the
    value is not a data frame, as it is on every other path. *)
Theorem request_failure_returns_pair_of_lists get parser save pre letter post df hs :
  String.list_ascii_of_string ascii_lowercase = pre ++ letter :: post →
  run_letters get parser pre [] None = Ret (Next df hs) →
  fetch get (players_url letter) = None →
  get_all_players get parser save = Ret (PairOfLists [] [], None) ∧
  is_DataFrame (PairOfLists [] []) = false.
Proof.
  intros Halpha Hpre Hfetch. split; [|done].
  unfold get_all_players. rewrite Halpha, run_letters_app, Hpre. simpl.
  unfold letter_step. by rewrite Hfetch.
Qed.

Lemma request_failure_returns_pair_of_lists_witness :
  String.list_ascii_of_string ascii_lowercase
    = ["a"%char] ++ "b"%char :: String.list_ascii_of_string "cdefghijklmnopqrstuvwxyz" ∧
  run_letters only_letter_a (λ _, roster_page) ["a"%char] [] None
    = Ret (Next [record_active_hof;
                 [VStr "Rick Barry (notes)"; VStr "1966"; VStr "1980"; VStr "";
                  VInt 0; VBool false]]
                (Some ["Player"; "From"; "To"])) ∧
  fetch only_letter_a (players_url "b"%char) = None ∧
  get_all_players only_letter_a (λ _, roster_page) true = Ret (PairOfLists [] [], None) ∧
  is_DataFrame (PairOfLists [] []) = false.
Proof.
  split; [reflexivity |]. split; [reflexivity |]. split; [reflexivity |].
  eapply (request_failure_returns_pair_of_lists only_letter_a (λ _, roster_page) true
            ["a"%char] "b"%char); reflexivity.
Defined.

(** The path of line 40, for comparison: a page without rows ends the fetch
    with an empty data frame. *)
Example no_rows_returns_empty_frame :
  get_all_players always_ok (λ _, Tag "[document]" ∅ []) true = Ret (DataFrame [] [], None).
Proof. reflexivity. Qed.

(** C9: a data row whose name cell has no text makes the fetch raise: the
    row itself raises [IndexError] at [name[-1]] (or [KeyError] before, at a
    lone hyperlink without target), and so the whole call ends in one of the
    two exceptions instead of a value. *)
Theorem empty_name_raises get parser save pre letter post df hs content tr0 tr row th :
  String.list_ascii_of_string ascii_lowercase = pre ++ letter :: post →
  run_letters get parser pre [] None = Ret (Next df hs) →
  fetch get (players_url letter) = Some content →
  find_all "tr" [] (parser content) = tr0 :: tr →
  row ∈ tr → name_cell row = Some th → get_text th = "" →
  scrape_row row = Raise (match link_of th with Raise e => e | Ret _ => IndexError end) ∧
  (get_all_players get parser save = Raise IndexError ∨
   get_all_players get parser save = Raise KeyError).
Proof.
  intros Halpha Hpre Hfetch Htr Hin Hcell Hname.
  pose proof (scrape_row_empty_name row th Hcell Hname) as Hrow.
  split; [done |].
  unfold get_all_players. rewrite Halpha, run_letters_app, Hpre. simpl.
  unfold letter_step. rewrite Hfetch, Htr.
  destruct (scrape_rows_Raise tr [] row _ Hin Hrow) as [-> | ->]; auto.
Qed.

Lemma empty_name_raises_witness :
  String.list_ascii_of_string ascii_lowercase
    = [] ++ "a"%char :: String.list_ascii_of_string "bcdefghijklmnopqrstuvwxyz" ∧
  run_letters always_ok (λ _, roster_page_empty_name) [] [] None = Ret (Next [] None) ∧
  fetch always_ok (players_url "a"%char) = Some "<table>...</table>" ∧
  find_all "tr" [] roster_page_empty_name = [header_row_empty_name; row_empty_name] ∧
  row_empty_name ∈ [row_empty_name] ∧
  name_cell row_empty_name = Some th_empty_name ∧
  get_text th_empty_name = "" ∧
  scrape_row row_empty_name
    = Raise (match link_of th_empty_name with Raise e => e | Ret _ => IndexError end) ∧
  (get_all_players always_ok (λ _, roster_page_empty_name) true = Raise IndexError ∨
   get_all_players always_ok (λ _, roster_page_empty_name) true = Raise KeyError).
Proof.
  do 7 (split; [first [reflexivity | by left] |]).
  eapply (empty_name_raises always_ok (λ _, roster_page_empty_name) true
            [] "a"%char _ [] None "<table>...</table>" header_row_empty_name
            [row_empty_name] row_empty_name th_empty_name);
    first [reflexivity | by left].
Defined.

Example empty_name_raises_IndexError :
  get_all_players always_ok (λ _, roster_page_empty_name) true = Raise IndexError.
Proof. reflexivity. Qed.

(** ** Locating the container *)

(** [Comment] is not among the names the module binds. *)
Lemma is_Comment_raises text : is_Comment text = Raise NameError.
Proof. reflexivity. Qed.

Lemma filter_strings_is_Comment ds :
  filter_strings is_Comment ds
  = if existsb is_string_node ds then Raise NameError else Ret [].
Proof.
  induction ds as [|d ds IH]; [done |].
  destruct d; simpl; [exact IH | done | done].
Qed.

Lemma locate_div_direct parser soup div_id table_div :
  find "div" [("id", Some div_id)] soup = Some table_div →
  locate_div parser soup div_id = Ret (Some table_div).
Proof. unfold locate_div. by intros ->. Qed.

(** Without a direct hit the comment search is entered, and it gets past
    its first line only on a document without any string node. *)
Lemma locate_div_fallback parser soup div_id :
  find "div" [("id", Some div_id)] soup = None →
  locate_div parser soup div_id
  = if existsb is_string_node (descendants soup) then Raise NameError else Ret None.
Proof.
  unfold locate_div, find_all_string. intros ->.
  rewrite filter_strings_is_Comment. by destruct (existsb _ _).
Qed.

Lemma existsb_string_node ds d :
  d ∈ ds → is_string_node d = true → existsb is_string_node ds = true.
Proof.
  intros Hin Hd. apply existsb_exists. exists d. split; [by apply list_elem_of_In | done].
Qed.

(** C2: on a document where the container is not found directly and a
    comment node is present, the comment search raises [NameError] at
    [isinstance(text, Comment)]; no comment is parsed and no table is
    returned. *)
Theorem comment_fallback_raises_NameError parser soup div_id c :
  find "div" [("id", Some div_id)] soup = None →
  Comment c ∈ descendants soup →
  get_table parser soup div_id = Raise NameError.
Proof.
  intros Hfind Hin. unfold get_table, table_parts.
  rewrite (locate_div_fallback _ _ _ Hfind).
  by rewrite (existsb_string_node _ _ Hin).
Qed.

Lemma comment_fallback_raises_NameError_witness :
  find "div" [("id", Some "per_game")] player_page_commented = None ∧
  Comment commented_markup ∈ descendants player_page_commented ∧
  get_table sample_parser player_page_commented "per_game" = Raise NameError.
Proof.
  split; [reflexivity |]. split; [vm_compute; right; left |].
  apply (comment_fallback_raises_NameError sample_parser player_page_commented
           "per_game" commented_markup); [reflexivity | vm_compute; right; left].
Defined.

(** What the fallback is meant to find there: the comment mentions the identifier, its
    parsed content holds the container, and the container read directly gives
    the table. *)
Example commented_table_expected :
  Str.contains "per_game" commented_markup = true ∧
  find "div" [("id", Some "per_game")] (sample_parser commented_markup) = Some per_game_div ∧
  get_table sample_parser player_page "per_game"
    = Ret (Some [("Season", ["2001-02"; "2002-03"]); ("Age", ["21"; "22"]);
                 ("PTS", ["10.1"; "12.5"])]).
Proof. split_and!; reflexivity. Qed.

(** C3: a page that holds neither the container nor any comment, but some
    text, does not give an absent result: the call raises [NameError]. *)
Theorem absent_table_raises_NameError :
  find "div" [("id", Some "per_game")] page_without_table = None ∧
  (∀ c, Comment c ∉ descendants page_without_table) ∧
  ∀ parser, get_table parser page_without_table "per_game" = Raise NameError.
Proof.
  split; [reflexivity |]. split.
  - intros c Hc. vm_compute in Hc.
    repeat (apply elem_of_cons in Hc as [Hc | Hc]; [discriminate Hc |]).
    by apply elem_of_nil in Hc.
  - intros parser. unfold get_table, table_parts.
    by rewrite locate_div_fallback.
Qed.

(** ** The dict *)

Lemma dict_get_set_eq k v d : dict_get k (dict_set k v d) = Some v.
Proof.
  induction d as [|[k' v'] d IH]; simpl.
  - by rewrite bool_decide_eq_true_2.
  - case_bool_decide as Hk; simpl.
    + by rewrite bool_decide_eq_true_2.
    + by rewrite bool_decide_eq_false_2.
Qed.

Lemma dict_get_set_ne k k' v d : k' ≠ k → dict_get k (dict_set k' v d) = dict_get k d.
Proof.
  intros Hne. induction d as [|[k'' v''] d IH]; simpl.
  - by rewrite bool_decide_eq_false_2.
  - case_bool_decide as Hk; simpl.
    + subst k''. by rewrite !bool_decide_eq_false_2.
    + by rewrite IH.
Qed.

Lemma dict_set_set k v v' d : dict_set k v (dict_set k v' d) = dict_set k v d.
Proof.
  induction d as [|[k'' v''] d IH]; simpl.
  - by rewrite bool_decide_eq_true_2.
  - case_bool_decide as Hk; simpl.
    + by rewrite bool_decide_eq_true_2.
    + by rewrite bool_decide_eq_false_2, IH.
Qed.

Lemma dict_set_get_id k v (d : dict) : dict_get k d = Some v → dict_set k v d = d.
Proof.
  induction d as [|[k' v'] d IH]; simpl; [done |].
  case_bool_decide as Hk.
  - intros [= ->]. by subst k'.
  - intros Hget. f_equal. auto.
Qed.

Lemma dict_set_keys k v (d : dict) :
  (dict_set k v d).*1 = if decide (k ∈ d.*1) then d.*1 else d.*1 ++ [k].
Proof.
  induction d as [|[k' v'] d IH].
  - destruct (decide (k ∈ ([] : dict).*1)) as [Hin|_]; [by apply elem_of_nil in Hin | done].
  - change (((k', v') :: d).*1) with (k' :: d.*1). simpl. case_bool_decide as Hk.
    + subst k'. destruct (decide (k ∈ k :: d.*1)) as [_|Hn]; [done |].
      exfalso. apply Hn. left.
    + change ((k', v') :: dict_set k v d).*1 with (k' :: (dict_set k v d).*1).
      rewrite IH. destruct (decide (k ∈ d.*1)) as [Hin|Hin];
        destruct (decide (k ∈ k' :: d.*1)) as [Hin'|Hin']; try done.
      * exfalso. apply Hin'. by right.
      * apply elem_of_cons in Hin' as [?|?]; [congruence | done].
Qed.

Lemma dict_get_Some_elem k v (d : dict) : dict_get k d = Some v → (k, v) ∈ d.
Proof.
  induction d as [|[k' v'] d IH]; simpl; [done |].
  case_bool_decide as Hk.
  - intros [= ->]. subst k'. left.
  - intros ?. right. auto.
Qed.

Lemma dict_elem_get k v (d : dict) : NoDup d.*1 → (k, v) ∈ d → dict_get k d = Some v.
Proof.
  induction d as [|[k' v'] d IH]; simpl.
  - intros _ Hin. by apply elem_of_nil in Hin.
  - intros [Hnotin Hnd]%NoDup_cons [Heq | Hin]%elem_of_cons.
    + injection Heq as <- <-. by rewrite bool_decide_eq_true_2.
    + rewrite bool_decide_eq_false_2; [auto |].
      intros ->. apply Hnotin. by apply (list_elem_of_fmap_2 fst) in Hin.
Qed.

Lemma dict_filter_fresh k (d : dict) : k ∉ d.*1 → filter (λ kv, kv.1 = k) d = [].
Proof.
  induction d as [|[k' v'] d IH]; [done |].
  intros Hnotin. simpl in Hnotin. apply not_elem_of_cons in Hnotin as [Hne Hnotin].
  rewrite filter_cons_False by (simpl; congruence). auto.
Qed.

Lemma dict_filter_key k v (d : dict) :
  NoDup d.*1 → dict_get k d = Some v → filter (λ kv, kv.1 = k) d = [(k, v)].
Proof.
  induction d as [|[k' v'] d IH]; [done |].
  intros Hnd Hget. simpl in Hnd, Hget. apply NoDup_cons in Hnd as [Hnotin Hnd].
  case_bool_decide as Hk.
  - injection Hget as ->. subst k'. rewrite filter_cons_True by done.
    by rewrite dict_filter_fresh.
  - rewrite filter_cons_False by done. auto.
Qed.

(** ** Keys without their repetitions *)

Lemma elem_of_first_occurrences k ks : k ∈ first_occurrences ks ↔ k ∈ ks.
Proof.
  induction ks as [|k' ks IH]; simpl; [done |].
  rewrite !elem_of_cons, list_elem_of_filter, IH. split.
  - intros [-> | [_ ?]]; auto.
  - intros [-> | ?]; [by left |]. destruct (decide (k = k')); [by left | by right].
Qed.

Lemma NoDup_first_occurrences ks : NoDup (first_occurrences ks).
Proof.
  induction ks as [|k ks IH]; simpl; [constructor |].
  apply NoDup_cons. split.
  - rewrite list_elem_of_filter. by intros [? _].
  - by apply NoDup_filter.
Qed.

Lemma filter_ne_fresh k (ks : list string) : k ∉ ks → filter (λ k', k' ≠ k) ks = ks.
Proof.
  induction ks as [|k' ks IH]; [done |].
  intros [? ?]%not_elem_of_cons. rewrite filter_cons_True by done. f_equal. auto.
Qed.

Lemma first_occurrences_NoDup ks : NoDup ks → first_occurrences ks = ks.
Proof.
  induction ks as [|k ks IH]; simpl; [done |].
  intros [Hnotin Hnd]%NoDup_cons. rewrite IH by done. f_equal.
  by apply filter_ne_fresh.
Qed.

Lemma first_occurrences_snoc ks k :
  first_occurrences (ks ++ [k])
  = if decide (k ∈ ks) then first_occurrences ks else first_occurrences ks ++ [k].
Proof.
  induction ks as [|k' ks IH].
  - destruct (decide (k ∈ [])) as [Hin|_]; [by apply elem_of_nil in Hin | done].
  - change (first_occurrences ((k' :: ks) ++ [k]))
      with (k' :: filter (λ x, x ≠ k') (first_occurrences (ks ++ [k]))).
    change (first_occurrences (k' :: ks))
      with (k' :: filter (λ x, x ≠ k') (first_occurrences ks)).
    rewrite IH.
    destruct (decide (k ∈ ks)) as [Hin|Hin], (decide (k ∈ k' :: ks)) as [Hin'|Hin'];
      try done.
    + exfalso. apply Hin'. by right.
    + apply elem_of_cons in Hin' as [-> | ?]; [|done].
      rewrite filter_app, filter_cons_False, filter_nil, app_nil_r; [done | auto].
    + apply not_elem_of_cons in Hin' as [? _].
      by rewrite filter_app, filter_cons_True, filter_nil.
Qed.

Lemma length_first_occurrences ks : length (first_occurrences ks) ≤ length ks.
Proof.
  induction ks as [|k ks IH]; simpl; [done |].
  pose proof (length_filter (λ k', k' ≠ k) (first_occurrences ks)). lia.
Qed.

(** A repeated key makes the list of keys shorter. *)
Lemma length_first_occurrences_repeated (ks : list string) i j k :
  i < j → ks !! i = Some k → ks !! j = Some k →
  length (first_occurrences ks) < length ks.
Proof.
  revert i j. induction ks as [|k' ks IH]; intros i j Hij Hi Hj; [done |].
  simpl. destruct i as [|i], j as [|j]; try lia; simpl in Hi, Hj.
  - injection Hi as ->.
    assert (k ∈ first_occurrences ks) as Hin
      by (apply elem_of_first_occurrences; by eapply list_elem_of_lookup_2).
    pose proof (length_filter_lt (λ k', k' ≠ k) _ k Hin) as Hlt.
    pose proof (length_first_occurrences ks). apply Nat.lt_succ_r.
    assert (length (filter (λ k', k' ≠ k) (first_occurrences ks))
            < length (first_occurrences ks)) by (apply Hlt; auto). lia.
  - assert (length (first_occurrences ks) < length ks) by (apply (IH i j); [lia | done..]).
    pose proof (length_filter (λ x, x ≠ k') (first_occurrences ks)). lia.
Qed.

(** ** From the columns to the table *)

Lemma table_of_columns_snoc cols k vs :
  table_of_columns (cols ++ [(k, vs)]) = dict_set k vs (table_of_columns cols).
Proof. unfold table_of_columns. by rewrite foldl_snoc. Qed.

(** The keys of the table are the header texts, each where it first
    occurred. *)
Lemma table_of_columns_keys cols :
  (table_of_columns cols).*1 = first_occurrences cols.*1.
Proof.
  induction cols as [|[k vs] cols IH] using rev_ind; [done |].
  rewrite table_of_columns_snoc, dict_set_keys, fmap_app, IH. simpl.
  rewrite first_occurrences_snoc.
  destruct (decide (k ∈ first_occurrences cols.*1)) as [Hin|Hin],
           (decide (k ∈ cols.*1)) as [Hin'|Hin']; try done.
  - exfalso. apply Hin'. by apply elem_of_first_occurrences.
  - exfalso. apply Hin. by apply elem_of_first_occurrences.
Qed.

Lemma table_of_columns_NoDup cols : NoDup (table_of_columns cols).*1.
Proof. rewrite table_of_columns_keys. apply NoDup_first_occurrences. Qed.

(** The value under a key is the one stored last. *)
Lemma table_of_columns_get cols k vs :
  dict_get k (table_of_columns cols) = Some vs →
  ∃ j, cols !! j = Some (k, vs) ∧
       ∀ j' kv, j < j' → cols !! j' = Some kv → kv.1 ≠ k.
Proof.
  induction cols as [|[k' vs'] cols IH] using rev_ind; [done |].
  rewrite table_of_columns_snoc. destruct (decide (k' = k)) as [->|Hne].
  - rewrite dict_get_set_eq. intros [= ->]. exists (length cols). split.
    + by apply list_lookup_middle.
    + intros j' kv Hlt Hj'. apply lookup_lt_Some in Hj'.
      rewrite length_app in Hj'. simpl in Hj'. lia.
  - rewrite dict_get_set_ne by done. intros (j & Hj & Hlast)%IH.
    exists j. split; [by apply lookup_app_l_Some |].
    intros j' kv Hlt Hj'. apply lookup_app_Some in Hj' as [Hj' | [_ Hj']].
    + by eapply Hlast.
    + destruct (j' - length cols) as [|n]; simpl in Hj'; [|done].
      injection Hj' as <-. done.
Qed.

(** ** The loops of [get_table] *)

Lemma fill_column_spec cell th rows (stats_table : dict) col :
  dict_get (get_text th) stats_table = Some col →
  fill_column cell th rows stats_table
  = vs ← column cell th rows; Ret (dict_set (get_text th) (col ++ vs) stats_table).
Proof.
  revert stats_table col. induction rows as [|row rows IH]; intros d col Hget.
  - simpl. by rewrite app_nil_r, dict_set_get_id.
  - simpl. unfold dict_getitem. rewrite Hget. simpl.
    destruct (cell_text cell th row) as [v|e]; simpl; [|done].
    rewrite (IH _ (col ++ [v])) by apply dict_get_set_eq.
    destruct (column cell th rows) as [vs|e]; simpl; [|done].
    by rewrite dict_set_set, <- app_assoc.
Qed.

Lemma fill_columns_spec ths rows (stats_table : dict) :
  fill_columns ths rows stats_table
  = cols ← td_columns ths rows;
    Ret (foldl (λ d kv, dict_set kv.1 kv.2 d) stats_table cols).
Proof.
  revert stats_table. induction ths as [|th ths IH]; intros d; [done |].
  simpl. rewrite (fill_column_spec _ _ _ _ []) by apply dict_get_set_eq.
  destruct (column "td" th rows) as [vs|e]; simpl; [|done].
  rewrite dict_set_set, IH. by destruct (td_columns ths rows).
Qed.

(** The table is the dict of the columns, stored in header order. *)
Lemma build_table_spec headers rows :
  build_table headers rows = table_of_columns <$> header_columns headers rows.
Proof.
  unfold build_table, header_columns. destruct headers as [|h0 ths]; [done |].
  simpl. rewrite (fill_column_spec _ _ _ _ []) by (simpl; by rewrite bool_decide_eq_true_2).
  destruct (column "th" h0 rows) as [v0|e]; simpl; [|done].
  rewrite bool_decide_eq_true_2 by done. rewrite drop_0, fill_columns_spec.
  by destruct (td_columns ths rows).
Qed.

Lemma column_Ret cell th rows vs :
  column cell th rows = Ret vs →
  Forall2 (λ row v, ∃ c, lookup_cell cell th row = Some c ∧ get_text c = v) rows vs.
Proof.
  revert vs. induction rows as [|row rows IH]; intros vs; simpl.
  - intros [= <-]. constructor.
  - intros (v & Hv & (vs' & Hvs & [= <-])%bind_Ret)%bind_Ret.
    constructor; [|auto]. unfold cell_text in Hv. fold (lookup_cell cell th row) in Hv.
    destruct (lookup_cell cell th row) as [c|]; [|done]. injection Hv as <-. eauto.
Qed.

Lemma column_Raise cell th rows e : column cell th rows = Raise e → e = AttributeError.
Proof.
  induction rows as [|row rows IH]; simpl; [done |].
  intros [Hv | (v & _ & [Hvs | (vs & _ & ?)]%bind_Raise)]%bind_Raise; [|auto|done].
  unfold cell_text in Hv. destruct (find _ _ _); congruence.
Qed.

Lemma column_missing cell th rows row :
  row ∈ rows → lookup_cell cell th row = None → column cell th rows = Raise AttributeError.
Proof.
  intros Hin Hnone. destruct (column cell th rows) as [vs|e] eqn:Hcol.
  - apply column_Ret in Hcol. apply list_elem_of_lookup_1 in Hin as [i Hi].
    destruct (Forall2_lookup_l _ _ _ _ _ Hcol Hi) as (v & _ & c & Hc & _). congruence.
  - by apply column_Raise in Hcol as ->.
Qed.

Lemma td_columns_Ret ths rows cols :
  td_columns ths rows = Ret cols →
  Forall2 (λ th kv, kv.1 = get_text th ∧ column "td" th rows = Ret kv.2) ths cols.
Proof.
  revert cols. induction ths as [|th ths IH]; intros cols; simpl.
  - intros [= <-]. constructor.
  - intros (vs & Hvs & (cols' & Hcols & [= <-])%bind_Ret)%bind_Ret.
    constructor; [done | auto].
Qed.

Lemma td_columns_Raise ths rows e : td_columns ths rows = Raise e → e = AttributeError.
Proof.
  induction ths as [|th ths IH]; simpl; [done |].
  intros [Hv | (v & _ & [Hvs | (vs & _ & ?)]%bind_Raise)]%bind_Raise; [|auto|done].
  by eapply column_Raise.
Qed.

(** One column per header cell, read by the cell's key. *)
Lemma header_columns_Ret headers rows cols :
  header_columns headers rows = Ret cols →
  cols.*1 = get_text <$> headers ∧
  ∀ j kv, cols !! j = Some kv →
    ∃ h, headers !! j = Some h ∧ kv.1 = get_text h ∧
         column (cell_tag j) h rows = Ret kv.2.
Proof.
  unfold header_columns. destruct headers as [|h0 ths]; [done |].
  intros (v0 & Hv0 & (cols' & Hcols & [= <-])%bind_Ret)%bind_Ret.
  apply td_columns_Ret in Hcols. split.
  - simpl. f_equal. clear -Hcols. induction Hcols as [|th kv ths cols [H _] _ IH]; [done |].
    simpl. by rewrite H, IH.
  - intros [|j] kv Hj; simpl in Hj.
    + injection Hj as <-. exists h0. eauto.
    + destruct (Forall2_lookup_r _ _ _ _ _ Hcols Hj) as (h & Hh & Hk & Hcol). eauto.
Qed.

Lemma header_columns_Raise headers rows e :
  header_columns headers rows = Raise e →
  (headers = [] ∧ e = IndexError) ∨ (headers ≠ [] ∧ e = AttributeError).
Proof.
  unfold header_columns. destruct headers as [|h0 ths]; [intros [= <-]; by left |].
  intros H. right. split; [done |].
  apply bind_Raise in H as [H | (v0 & _ & [H | (cols & _ & ?)]%bind_Raise)]; [| |done].
  - by eapply column_Raise.
  - by eapply td_columns_Raise.
Qed.

Lemma header_columns_length headers rows cols :
  header_columns headers rows = Ret cols → length cols = length headers.
Proof.
  intros [Hkeys _]%header_columns_Ret.
  by rewrite <- (length_fmap fst cols), Hkeys, length_fmap.
Qed.

Lemma header_columns_missing headers rows j h row :
  headers !! j = Some h → row ∈ rows → lookup_cell (cell_tag j) h row = None →
  header_columns headers rows = Raise AttributeError.
Proof.
  intros Hj Hin Hnone. destruct (header_columns headers rows) as [cols|e] eqn:Hcols.
  - pose proof (header_columns_length _ _ _ Hcols) as Hlen.
    destruct (lookup_lt_is_Some_2 cols j) as [kv Hkv].
    { rewrite Hlen. by eapply lookup_lt_Some. }
    destruct (proj2 (header_columns_Ret _ _ _ Hcols) j kv Hkv) as (h' & Hh' & _ & Hcol).
    assert (h' = h) as -> by congruence.
    rewrite (column_missing _ _ _ _ Hin Hnone) in Hcol. done.
  - apply header_columns_Raise in Hcols as [[-> _] | [_ ->]]; [done | done].
Qed.

(** ** The extracted table *)

Lemma get_table_parts parser soup div_id headers rows :
  table_parts parser soup div_id = Ret (Some (headers, rows)) →
  get_table parser soup div_id = Some <$> build_table headers rows.
Proof. unfold get_table. by intros ->. Qed.

Lemma get_table_Some parser soup div_id table :
  get_table parser soup div_id = Ret (Some table) →
  ∃ headers rows cols,
    table_parts parser soup div_id = Ret (Some (headers, rows)) ∧
    header_columns headers rows = Ret cols ∧ table = table_of_columns cols.
Proof.
  unfold get_table. intros (parts & Hparts & H)%bind_Ret.
  destruct parts as [[headers rows]|]; [|done].
  rewrite build_table_spec in H.
  destruct (header_columns headers rows) as [cols|e] eqn:Hcols; [|done].
  injection H as <-. by exists headers, rows, cols.
Qed.

(** An entry of the table comes from the last header cell with its text, and
    holds, row by row, the text of the cell found under that header cell's
    key. *)
Lemma table_entry headers rows cols k vs :
  header_columns headers rows = Ret cols → (k, vs) ∈ table_of_columns cols →
  ∃ j h, headers !! j = Some h ∧ get_text h = k ∧
         (∀ j' h', j < j' → headers !! j' = Some h' → get_text h' ≠ k) ∧
         Forall2 (λ row v, ∃ c, lookup_cell (cell_tag j) h row = Some c ∧ get_text c = v)
                 rows vs.
Proof.
  intros Hcols Hin.
  apply dict_elem_get in Hin; [|apply table_of_columns_NoDup].
  apply table_of_columns_get in Hin as (j & Hj & Hlast).
  destruct (proj2 (header_columns_Ret _ _ _ Hcols) j _ Hj) as (h & Hh & Hk & Hcol).
  simpl in Hk, Hcol. exists j, h. split_and!; [done | done | | by apply column_Ret].
  intros j' h' Hlt Hh'.
  destruct (lookup_lt_is_Some_2 cols j') as [kv Hkv].
  { rewrite (header_columns_length _ _ _ Hcols). by eapply lookup_lt_Some. }
  destruct (proj2 (header_columns_Ret _ _ _ Hcols) j' _ Hkv) as (h'' & Hh'' & Hk' & _).
  assert (h'' = h') as -> by congruence. rewrite <- Hk'. by eapply Hlast.
Qed.

(** C5: in a table that [get_table] returns, every column holds one value
    per row of the body section, in the order of the rows, and the columns
    stand in the order in which their header texts first occur in the header
    section (the order of the header cells when no text is repeated). *)
Theorem table_shape_and_order parser soup div_id table :
  get_table parser soup div_id = Ret (Some table) →
  ∃ headers rows,
    table_parts parser soup div_id = Ret (Some (headers, rows)) ∧
    Forall (λ kv, length kv.2 = length rows) table ∧
    table.*1 = first_occurrences (get_text <$> headers) ∧
    (NoDup (get_text <$> headers) → table.*1 = get_text <$> headers) ∧
    ∀ k vs, (k, vs) ∈ table →
      ∃ j h, headers !! j = Some h ∧ get_text h = k ∧
             Forall2 (λ row v, ∃ c, lookup_cell (cell_tag j) h row = Some c ∧
                                    get_text c = v) rows vs.
Proof.
  intros (headers & rows & cols & Hparts & Hcols & ->)%get_table_Some.
  exists headers, rows.
  assert (Hkeys : (table_of_columns cols).*1 = first_occurrences (get_text <$> headers)).
  { rewrite table_of_columns_keys. by destruct (header_columns_Ret _ _ _ Hcols) as [-> _]. }
  split_and!; [done | | done | |].
  - apply Forall_forall. intros [k vs] Hin.
    destruct (table_entry _ _ _ _ _ Hcols Hin) as (j & h & _ & _ & _ & Hall).
    simpl. symmetry. by eapply Forall2_length.
  - intros Hnd. by rewrite Hkeys, first_occurrences_NoDup.
  - intros k vs Hin.
    destruct (table_entry _ _ _ _ _ Hcols Hin) as (j & h & ? & ? & _ & ?). eauto.
Qed.

Lemma table_shape_and_order_witness :
  get_table sample_parser player_page_reversed "per_game"
    = Ret (Some [("Season", ["2001-02"; "2002-03"]); ("Age", ["21"; "22"]);
                 ("PTS", ["10.1"; "12.5"])]) ∧
  ∃ headers rows,
    table_parts sample_parser player_page_reversed "per_game" = Ret (Some (headers, rows)) ∧
    Forall (λ kv, length kv.2 = length rows)
           [("Season", ["2001-02"; "2002-03"]); ("Age", ["21"; "22"]);
            ("PTS", ["10.1"; "12.5"])] ∧
    [("Season", ["2001-02"; "2002-03"]); ("Age", ["21"; "22"]);
     ("PTS", ["10.1"; "12.5"])].*1 = first_occurrences (get_text <$> headers) ∧
    (NoDup (get_text <$> headers) →
     [("Season", ["2001-02"; "2002-03"]); ("Age", ["21"; "22"]);
      ("PTS", ["10.1"; "12.5"])].*1 = get_text <$> headers) ∧
    ∀ k vs, (k, vs) ∈ [("Season", ["2001-02"; "2002-03"]); ("Age", ["21"; "22"]);
                       ("PTS", ["10.1"; "12.5"])] →
      ∃ j h, headers !! j = Some h ∧ get_text h = k ∧
             Forall2 (λ row v, ∃ c, lookup_cell (cell_tag j) h row = Some c ∧
                                    get_text c = v) rows vs.
Proof.
  split; [reflexivity |].
  apply (table_shape_and_order sample_parser player_page_reversed "per_game").
  reflexivity.
Defined.

(** C10: when two header cells show the same text, the table has fewer
    columns than there are header cells, a single column stands under that
    text, and its values are those read for the last header cell with the
    text. *)
Theorem duplicate_header_text_overwrites parser soup div_id table headers rows i j hi hj :
  get_table parser soup div_id = Ret (Some table) →
  table_parts parser soup div_id = Ret (Some (headers, rows)) →
  i < j → headers !! i = Some hi → headers !! j = Some hj →
  get_text hi = get_text hj →
  length table < length headers ∧
  ∃ vs l hl,
    filter (λ kv, kv.1 = get_text hi) table = [(get_text hi, vs)] ∧
    j ≤ l ∧ headers !! l = Some hl ∧ get_text hl = get_text hi ∧
    (∀ l' h', l < l' → headers !! l' = Some h' → get_text h' ≠ get_text hi) ∧
    Forall2 (λ row v, ∃ c, lookup_cell "td" hl row = Some c ∧ get_text c = v) rows vs.
Proof.
  intros (headers' & rows' & cols & Hparts' & Hcols & ->)%get_table_Some Hparts
         Hij Hi Hj Htext.
  assert (headers' = headers ∧ rows' = rows) as [-> ->] by (split; congruence).
  destruct (header_columns_Ret _ _ _ Hcols) as [Hkeys _].
  split.
  - rewrite <- (length_fmap fst (table_of_columns cols)), table_of_columns_keys, Hkeys.
    rewrite <- (length_fmap get_text headers).
    apply (length_first_occurrences_repeated _ i j (get_text hi)); [done | |].
    + by rewrite list_lookup_fmap, Hi.
    + by rewrite list_lookup_fmap, Hj, Htext.
  - assert (get_text hi ∈ (table_of_columns cols).*1) as Hin.
    { rewrite table_of_columns_keys, Hkeys. apply elem_of_first_occurrences.
      apply list_elem_of_fmap. exists hi. split; [done | by eapply list_elem_of_lookup_2]. }
    apply list_elem_of_fmap in Hin as ([k vs] & Hk & Hin). simpl in Hk. subst k.
    destruct (table_entry _ _ _ _ _ Hcols Hin) as (l & hl & Hl & Hlk & Hlast & Hall).
    assert (j ≤ l) as Hjl.
    { destruct (decide (j ≤ l)) as [?|Hn]; [done |].
      exfalso. apply (Hlast j hj); [lia | done | by symmetry]. }
    exists vs, l, hl. split_and!; try done.
    + apply dict_filter_key; [apply table_of_columns_NoDup |].
      apply dict_elem_get; [apply table_of_columns_NoDup | done].
    + destruct l as [|l]; [lia | exact Hall].
Qed.

Lemma duplicate_header_text_overwrites_witness :
  get_table sample_parser player_page_duplicate_header "transactions"
    = Ret (Some [("Season", ["2001-02"; "2002-03"]); ("Tm", ["LAL"; "MIA"])]) ∧
  length [("Season", ["2001-02"; "2002-03"]); ("Tm", ["LAL"; "MIA"])]
    < length duplicate_headers ∧
  ∃ vs l hl,
    filter (λ kv, kv.1 = get_text (th_cell "team_from" "Tm"))
           [("Season", ["2001-02"; "2002-03"]); ("Tm", ["LAL"; "MIA"])]
      = [(get_text (th_cell "team_from" "Tm"), vs)] ∧
    2 ≤ l ∧ duplicate_headers !! l = Some hl ∧
    get_text hl = get_text (th_cell "team_from" "Tm") ∧
    (∀ l' h', l < l' → duplicate_headers !! l' = Some h' →
              get_text h' ≠ get_text (th_cell "team_from" "Tm")) ∧
    Forall2 (λ row v, ∃ c, lookup_cell "td" hl row = Some c ∧ get_text c = v)
      [Tag "tr" ∅ [th_cell "season" "2001-02"; td_cell "team_from" "BOS";
                  td_cell "team_to" "LAL"];
       Tag "tr" ∅ [th_cell "season" "2002-03"; td_cell "team_from" "LAL";
                  td_cell "team_to" "MIA"]] vs.
Proof.
  split; [reflexivity |].
  apply (duplicate_header_text_overwrites sample_parser player_page_duplicate_header
           "transactions" _ duplicate_headers _ 1 2
           (th_cell "team_from" "Tm") (th_cell "team_to" "Tm"));
    first [reflexivity | lia].
Defined.

(** ** Cells are found by key, not by position *)

Lemma find_all_attr cell k w row :
  find_all cell [(k, w)] row
  = filter (λ c, attr_matches (get c k) w) (find_all cell [] row).
Proof.
  unfold find_all. rewrite list_filter_filter. apply list_filter_iff.
  intros [nm a cs| |]; simpl; [|tauto..].
  rewrite !andb_True. simpl. tauto.
Qed.

Lemma find_Some cell k w row c :
  find cell [(k, w)] row = Some c →
  c ∈ descendants row ∧ ∃ a cs, c = Tag cell a cs ∧ attr_matches (a !! k) w.
Proof.
  unfold find, find_all. intros Hhead%head_Some_elem_of.
  apply list_elem_of_filter in Hhead as [Hmatch Hin]. split; [done |].
  destruct c as [nm a cs| |]; simpl in Hmatch; [|done..].
  rewrite !andb_True in Hmatch. destruct Hmatch as [->%bool_decide_unpack [? _]].
  eauto.
Qed.

Lemma attr_matches_same_key (a a' w : option string) :
  attr_matches a w → attr_matches a' w → default "" a = default "" a'.
Proof.
  destruct a as [a|], a' as [a'|], w as [w|]; simpl; try done.
  - intros ->%bool_decide_unpack ->%bool_decide_unpack. done.
  - intros ->%bool_decide_unpack ->%bool_decide_unpack. done.
  - intros ->%bool_decide_unpack ->%bool_decide_unpack. done.
Qed.

Lemma length_filter_same_key {A B} (f : A → B) (P : A → Prop) `{!∀ x, Decision (P x)}
    (l : list A) :
  NoDup (f <$> l) → (∀ x y, P x → P y → f x = f y) → length (filter P l) ≤ 1.
Proof.
  intros Hnd Hsame. induction l as [|x l IH]; [simpl; lia |].
  simpl in Hnd. apply NoDup_cons in Hnd as [Hnotin Hnd].
  destruct (decide (P x)) as [Hx|Hx].
  - rewrite filter_cons_True by done.
    assert (filter P l = []) as ->; [|simpl; lia].
    destruct (filter P l) as [|y l'] eqn:Hfilter; [done |]. exfalso.
    assert (y ∈ filter P l) as [Hy Hin]%list_elem_of_filter by (rewrite Hfilter; left).
    apply Hnotin. rewrite (Hsame x y Hx Hy). by apply list_elem_of_fmap_2.
  - rewrite filter_cons_False by done. auto.
Qed.

(** In a row with distinct keys at most one cell answers a lookup. *)
Lemma length_find_all_key cell w row :
  NoDup (cell_keys cell row) → length (find_all cell [("data-stat", w)] row) ≤ 1.
Proof.
  intros Hnd. rewrite find_all_attr.
  apply (length_filter_same_key (λ c, default "" (get c "data-stat"))); [done |].
  intros x y. apply attr_matches_same_key.
Qed.

Lemma find_reordered cell filters row row' :
  reordered row row' → length (find_all cell filters row) ≤ 1 →
  find cell filters row = find cell filters row'.
Proof.
  intros [name attrs cs cs' Hperm] Hlen. unfold find.
  assert (find_all cell filters (Tag name attrs cs)
          ≡ₚ find_all cell filters (Tag name attrs cs')) as Hall.
  { unfold find_all. simpl. by rewrite Hperm. }
  destruct (find_all cell filters (Tag name attrs cs)) as [|c [|c' l]].
  - apply Permutation_nil_l in Hall. by rewrite <- Hall.
  - apply Permutation_singleton_l in Hall. by rewrite <- Hall.
  - simpl in Hlen. lia.
Qed.

Lemma column_reordered cell th rows rows' :
  Forall2 reordered rows rows' → Forall (λ row, NoDup (cell_keys cell row)) rows →
  column cell th rows = column cell th rows'.
Proof.
  induction 1 as [|row row' rows rows' Hrow _ IH]; intros Hkeys; [done |].
  apply Forall_cons in Hkeys as [Hkey Hkeys]. simpl. unfold cell_text.
  rewrite (find_reordered _ _ row row') by (done || by apply length_find_all_key).
  by rewrite IH.
Qed.

Lemma header_columns_reordered headers rows rows' :
  Forall2 reordered rows rows' → Forall distinct_keys rows →
  header_columns headers rows = header_columns headers rows'.
Proof.
  intros Hrows Hkeys. unfold header_columns. destruct headers as [|h0 ths]; [done |].
  rewrite (column_reordered "th" h0 rows rows')
    by (done || (eapply Forall_impl; [done |]; by intros ? [? ?])).
  assert (td_columns ths rows = td_columns ths rows') as ->; [|done].
  induction ths as [|th ths IH]; [done |]. simpl.
  rewrite (column_reordered "td" th rows rows')
    by (done || (eapply Forall_impl; [done |]; by intros ? [? ?])).
  by rewrite IH.
Qed.

(** C4: the values of a returned table are read by key: each is the text of
    a cell of its row that carries the tag and the [data-stat] key looked up
    for the header cell; reordering the cells inside the rows does not change
    the result; and a row without a cell for some header cell ends the call
    with [AttributeError], not with a blank value. *)
Theorem cells_aligned_by_key parser :
  (∀ soup div_id table,
     get_table parser soup div_id = Ret (Some table) →
     ∃ headers rows,
       table_parts parser soup div_id = Ret (Some (headers, rows)) ∧
       ∀ k vs, (k, vs) ∈ table →
         ∃ j h, headers !! j = Some h ∧ get_text h = k ∧
           Forall2 (λ row v, ∃ a cs,
                      Tag (cell_tag j) a cs ∈ descendants row ∧
                      attr_matches (a !! "data-stat") (get h "data-stat") ∧
                      get_text (Tag (cell_tag j) a cs) = v) rows vs) ∧
  (∀ soup soup' div_id headers rows rows',
     table_parts parser soup div_id = Ret (Some (headers, rows)) →
     table_parts parser soup' div_id = Ret (Some (headers, rows')) →
     Forall2 reordered rows rows' → Forall distinct_keys rows →
     get_table parser soup div_id = get_table parser soup' div_id) ∧
  (∀ soup div_id headers rows j h row,
     table_parts parser soup div_id = Ret (Some (headers, rows)) →
     headers !! j = Some h → row ∈ rows →
     lookup_cell (cell_tag j) h row = None →
     get_table parser soup div_id = Raise AttributeError).
Proof.
  split_and!.
  - intros soup div_id table (headers & rows & cols & Hparts & Hcols & ->)%get_table_Some.
    exists headers, rows. split; [done |]. intros k vs Hin.
    destruct (table_entry _ _ _ _ _ Hcols Hin) as (j & h & Hj & Hk & _ & Hall).
    exists j, h. split_and!; [done | done |].
    eapply Forall2_impl; [exact Hall |]. simpl.
    intros row v (c & (Hin' & a & cs & -> & Hmatch)%find_Some & Hv). eauto.
  - intros soup soup' div_id headers rows rows' Hparts Hparts' Hrows Hkeys.
    rewrite (get_table_parts _ _ _ _ _ Hparts), (get_table_parts _ _ _ _ _ Hparts').
    by rewrite !build_table_spec, (header_columns_reordered _ rows rows').
  - intros soup div_id headers rows j h row Hparts Hj Hin Hnone.
    rewrite (get_table_parts _ _ _ _ _ Hparts), build_table_spec.
    by rewrite (header_columns_missing _ _ _ _ _ Hj Hin Hnone).
Qed.

Lemma cells_aligned_by_key_witness :
  (get_table sample_parser player_page_reversed "per_game"
     = Ret (Some [("Season", ["2001-02"; "2002-03"]); ("Age", ["21"; "22"]);
                  ("PTS", ["10.1"; "12.5"])]) ∧
   ∃ headers rows,
     table_parts sample_parser player_page_reversed "per_game"
       = Ret (Some (headers, rows)) ∧
     ∀ k vs, (k, vs) ∈ [("Season", ["2001-02"; "2002-03"]); ("Age", ["21"; "22"]);
                        ("PTS", ["10.1"; "12.5"])] →
       ∃ j h, headers !! j = Some h ∧ get_text h = k ∧
         Forall2 (λ row v, ∃ a cs,
                    Tag (cell_tag j) a cs ∈ descendants row ∧
                    attr_matches (a !! "data-stat") (get h "data-stat") ∧
                    get_text (Tag (cell_tag j) a cs) = v) rows vs) ∧
  (table_parts sample_parser player_page "per_game"
     = Ret (Some (stat_headers, per_game_rows)) ∧
   table_parts sample_parser player_page_reversed "per_game"
     = Ret (Some (stat_headers, per_game_rows_reversed)) ∧
   Forall2 reordered per_game_rows per_game_rows_reversed ∧
   Forall distinct_keys per_game_rows ∧
   get_table sample_parser player_page "per_game"
     = get_table sample_parser player_page_reversed "per_game") ∧
  (table_parts sample_parser player_page_missing_cell "per_game"
     = Ret (Some (stat_headers, per_game_rows_missing_cell)) ∧
   stat_headers !! 1 = Some (th_cell "age" "Age") ∧
   row_without_age ∈ per_game_rows_missing_cell ∧
   lookup_cell (cell_tag 1) (th_cell "age" "Age") row_without_age = None ∧
   get_table sample_parser player_page_missing_cell "per_game" = Raise AttributeError).
Proof.
  destruct (cells_aligned_by_key sample_parser) as (Hkey & Horder & Hmissing).
  assert (Hperm : Forall2 reordered per_game_rows per_game_rows_reversed).
  { constructor; [|constructor; [|constructor]]; apply reordered_tag.
    - exact (reverse_Permutation
               [td_cell "pts" "10.1"; td_cell "age" "21"; th_cell "season" "2001-02"]).
    - exact (reverse_Permutation
               [td_cell "pts" "12.5"; td_cell "age" "22"; th_cell "season" "2002-03"]). }
  assert (Hdistinct : Forall distinct_keys per_game_rows).
  { apply Forall_cons_2; [|apply Forall_cons_2; [|apply Forall_nil_2]];
      (split; refine (bool_decide_unpack _ _); vm_compute; exact I). }
  split; [split; [reflexivity | apply Hkey; reflexivity] |].
  split.
  - split_and!; [reflexivity | reflexivity | exact Hperm | exact Hdistinct |].
    apply (Horder _ _ _ stat_headers per_game_rows per_game_rows_reversed);
      [reflexivity | reflexivity | exact Hperm | exact Hdistinct].
  - split_and!; [reflexivity | reflexivity | right; left | reflexivity |].
    apply (Hmissing _ _ stat_headers per_game_rows_missing_cell 1
             (th_cell "age" "Age") row_without_age);
      [reflexivity | reflexivity | right; left | reflexivity].
Defined.

(** X5: The parser is never reached: the result does not depend on it. *)
Lemma get_table_parser_irrelevant parser parser' soup div_id :
  get_table parser soup div_id = get_table parser' soup div_id.
Proof.
  unfold get_table, table_parts.
  destruct (find "div" [("id", Some div_id)] soup) as [table_div|] eqn:Hfind.
  - by rewrite !(locate_div_direct _ _ _ _ Hfind).
  - by rewrite !(locate_div_fallback _ _ _ Hfind).
Qed.

(** ** When the result is absent *)

Lemma build_table_not_None headers rows :
  (Some <$> build_table headers rows : result (option dict)) ≠ Ret None.
Proof. by destruct (build_table headers rows). Qed.

(** X4: [get_table] returns [None] in two cases only: the container is found
    and lacks a header or a body section, or it is not found on a document
    that has no string node at all. *)
Lemma get_table_absent_iff parser soup div_id :
  get_table parser soup div_id = Ret None ↔
  (∃ table_div, find "div" [("id", Some div_id)] soup = Some table_div ∧
                (find "thead" [] table_div = None ∨ find "tbody" [] table_div = None)) ∨
  (find "div" [("id", Some div_id)] soup = None ∧
   existsb is_string_node (descendants soup) = false).
Proof.
  unfold get_table, table_parts.
  destruct (find "div" [("id", Some div_id)] soup) as [table_div|] eqn:Hfind.
  - rewrite (locate_div_direct _ _ _ _ Hfind). simpl.
    destruct (find "thead" [] table_div) as [thead|] eqn:Hthead,
             (find "tbody" [] table_div) as [tbody|] eqn:Htbody; simpl.
    + split.
      * intros H. by apply build_table_not_None in H.
      * intros [(d & [= <-] & [? | ?]) | [? _]]; congruence.
    + split; [intros _; left; eauto | done].
    + split; [intros _; left; eauto | done].
    + split; [intros _; left; eauto | done].
  - rewrite (locate_div_fallback _ _ _ Hfind).
    destruct (existsb is_string_node (descendants soup)); simpl.
    + split; [done | intros [(d & ? & _) | [_ ?]]; done].
    + split; [intros _; by right | done].
Qed.

(** The found container without a body section: absent. *)
Example container_without_tbody_is_absent parser :
  get_table parser page_without_tbody "per_game" = Ret None.
Proof. reflexivity. Qed.

(** A header section without header cells: [headers[0]] raises. *)
Example empty_header_section_raises parser :
  get_table parser
    (Tag "[document]" ∅
       [Tag "div" {[ "id" := "per_game" ]} [Tag "thead" ∅ []; Tag "tbody" ∅ []]])
    "per_game"
  = Raise IndexError.
Proof. reflexivity. Qed.

(** ** The records of the roster *)

(** A status below 400 is not a failed request for [raise_for_status]. *)
Example status_below_400_is_no_failure :
  fetch (λ _, Response 304 "") (players_url "a"%char) = Some "".
Proof. reflexivity. Qed.

Lemma letter_step_records get parser letter df_list df_list' headers :
  letter_step get parser letter df_list = Ret (Next df_list' headers) →
  Forall (λ record, ∃ row, scrape_row row = Ret record) df_list →
  Forall (λ record, ∃ row, scrape_row row = Ret record) df_list'.
Proof.
  unfold letter_step. destruct (fetch get (players_url letter)) as [content|]; [|done].
  destruct (find_all "tr" [] (parser content)) as [|tr0 tr]; [done |].
  intros (raw_data & (records & -> & Hall)%scrape_rows_records & [= <- _])%bind_Ret Hdf.
  apply Forall_app. split; [done |]. simpl.
  apply Forall_forall. intros record Hin.
  apply list_elem_of_lookup_1 in Hin as [i Hi].
  destruct (Forall2_lookup_r _ _ _ _ _ Hall Hi) as (row & _ & Hrow). eauto.
Qed.

Lemma run_letters_records get parser alphabet df_list headers df_list' headers' :
  run_letters get parser alphabet df_list headers = Ret (Next df_list' headers') →
  Forall (λ record, ∃ row, scrape_row row = Ret record) df_list →
  Forall (λ record, ∃ row, scrape_row row = Ret record) df_list'.
Proof.
  revert df_list headers. induction alphabet as [|letter rest IH]; intros df_list headers.
  - simpl. by intros [= <- _].
  - simpl. intros (f & Hstep & Hrest)%bind_Ret Hdf.
    destruct f as [df_list1 headers1|r]; [|done].
    eapply IH; [done |]. by eapply letter_step_records.
Qed.

(** Every record of the data frame the fetch returns is the record of one
    roster row. *)
Lemma get_all_players_records get parser save columns data written :
  get_all_players get parser save = Ret (DataFrame columns data, written) →
  Forall (λ record, ∃ row, scrape_row row = Ret record) data.
Proof.
  unfold get_all_players. intros (f & Hrun & H)%bind_Ret.
  destruct f as [df_list [headers|]|r].
  - injection H as _ <- _. eapply run_letters_records; [done | constructor].
  - done.
  - injection H as -> _. clear -Hrun.
    assert (∀ alphabet df_list headers,
              run_letters get parser alphabet df_list headers
                = Ret (Return (DataFrame columns data)) → data = []) as Hempty.
    { induction alphabet as [|letter rest IH]; intros df_list headers; [done |].
      simpl. intros (f & Hstep & Hrest)%bind_Ret.
      destruct f as [df_list1 headers1|r]; [by eapply IH |].
      injection Hrest as ->. unfold letter_step in Hstep.
      destruct (fetch get (players_url letter)) as [content|]; [|done].
      destruct (find_all "tr" [] (parser content)) as [|tr0 tr].
      - by injection Hstep as _ <-.
      - by destruct (scrape_rows tr []). }
    rewrite (Hempty _ _ _ Hrun). constructor.
Qed.

(** The fetch that succeeds on every letter returns a data frame. *)
Example successful_fetch_returns_frame :
  (λ r, is_DataFrame r.1) <$> get_all_players always_ok (λ _, roster_page) true = Ret true.
Proof. reflexivity. Qed.

(** * Further properties of the two functions *)

(** ** One roster row *)

Lemma link_of_Ret_iff th :
  (∃ link, link_of th = Ret link) ↔
  ∀ a, find_all "a" [] th = [a] → is_Some (get a "href").
Proof.
  unfold link_of. split.
  - intros [link Hlink] a Ha. rewrite Ha in Hlink. simpl in Hlink.
    unfold getitem_attr in Hlink. by destruct (get a "href").
  - intros Hhref. case_bool_decide as Hlen; [|eauto].
    destruct (find_all "a" [] th) as [|a [|??]]; simplify_eq/=.
    destruct (Hhref a eq_refl) as [href Hget]. exists href.
    unfold getitem_attr. by rewrite Hget.
Qed.

(** X9: A row is turned into a record exactly when it has a name cell, the
    cell's text is not empty, and a lone hyperlink in the cell has a target;
    otherwise the row raises. *)
Theorem scrape_row_returns_iff row :
  (∃ record, scrape_row row = Ret record) ↔
  ∃ th, name_cell row = Some th ∧ get_text th ≠ "" ∧
        ∀ a, find_all "a" [] th = [a] → is_Some (get a "href").
Proof.
  split.
  - intros [record (th & link & c & Hth & Hlink & Hc & _)%scrape_row_Ret].
    exists th. split_and!; [done | |].
    + intros Hempty. by rewrite Hempty in Hc.
    + apply link_of_Ret_iff. eauto.
  - intros (th & Hth & Hname & Hhref).
    apply link_of_Ret_iff in Hhref as [link Hlink].
    destruct (last_nonempty _ Hname) as [c Hc].
    unfold scrape_row, getitem. unfold name_cell in Hth. rewrite Hth. simpl.
    rewrite Hlink. simpl. unfold Str.getitem_last. rewrite Hc. simpl. eauto.
Qed.

(** X10: The layout of a record: the name, then the text of every [td] of the
    row in document order, then the three derived fields. *)
Theorem record_layout row record :
  scrape_row row = Ret record →
  length record = length (find_all "td" [] row) + 4 ∧
  (∃ name, record !! 0 = Some (VStr name)) ∧
  (∀ i td, find_all "td" [] row !! i = Some td →
           record !! S i = Some (VStr (get_text td))) ∧
  (∃ url n b, drop (S (length (find_all "td" [] row))) record
              = [VStr url; VInt n; VBool b]).
Proof.
  intros (th & link & c & _ & _ & _ & ->)%scrape_row_Ret.
  set (tds := find_all "td" [] row). split_and!.
  - simpl. rewrite length_app, !length_fmap. simpl. lia.
  - eauto.
  - intros i td Hi. simpl. apply lookup_app_l_Some.
    by rewrite !list_lookup_fmap, Hi.
  - do 3 eexists. simpl.
    rewrite drop_app_length'; [done |]. by rewrite !length_fmap.
Qed.

Lemma record_layout_witness :
  scrape_row row_active_hof = Ret record_active_hof ∧
  length record_active_hof = length (find_all "td" [] row_active_hof) + 4 ∧
  (∃ name, record_active_hof !! 0 = Some (VStr name)) ∧
  (∀ i td, find_all "td" [] row_active_hof !! i = Some td →
           record_active_hof !! S i = Some (VStr (get_text td))) ∧
  (∃ url n b, drop (S (length (find_all "td" [] row_active_hof))) record_active_hof
              = [VStr url; VInt n; VBool b]).
Proof.
  split; [reflexivity |].
  apply (record_layout row_active_hof record_active_hof). reflexivity.
Defined.

(** ** The letter loop *)

Lemma scrape_rows_Ret tr raw_data records :
  Forall2 (λ row record, scrape_row row = Ret record) tr records →
  scrape_rows tr raw_data = Ret (raw_data ++ records).
Proof.
  intros Hall. revert raw_data.
  induction Hall as [|row record tr records Hrow _ IH]; intros raw_data; simpl.
  - by rewrite app_nil_r.
  - rewrite Hrow. simpl. by rewrite IH, <- app_assoc.
Qed.

Lemma scrape_rows_Raise_inv tr raw_data e :
  scrape_rows tr raw_data = Raise e → ∃ row, row ∈ tr ∧ scrape_row row = Raise e.
Proof.
  revert raw_data. induction tr as [|row tr IH]; intros raw_data; simpl; [done |].
  intros [Hrow | (record & _ & (row' & Hin & Hrow')%IH)]%bind_Raise.
  - exists row. split; [left | done].
  - exists row'. split; [by right | done].
Qed.

Lemma loop_headers_cons headers page pages :
  loop_headers headers (page :: pages) = loop_headers (Some (page_header page.1)) pages.
Proof. unfold loop_headers. rewrite last_cons. by destruct (last pages). Qed.

Lemma letter_step_page get parser letter df_list page records :
  is_page get parser letter page →
  Forall2 (λ row record, scrape_row row = Ret record) page.2 records →
  letter_step get parser letter df_list
  = Ret (Next (df_list ++ records) (Some (page_header page.1))).
Proof.
  intros (content & Hfetch & Htr) Hrows. unfold letter_step.
  rewrite Hfetch, Htr. by rewrite (scrape_rows_Ret _ _ _ Hrows).
Qed.

Lemma letter_step_Next_inv get parser letter df_list df_list' headers :
  letter_step get parser letter df_list = Ret (Next df_list' headers) →
  ∃ page records,
    is_page get parser letter page ∧
    Forall2 (λ row record, scrape_row row = Ret record) page.2 records ∧
    df_list' = df_list ++ records ∧ headers = Some (page_header page.1).
Proof.
  unfold letter_step.
  destruct (fetch get (players_url letter)) as [content|] eqn:Hfetch; [|done].
  destruct (find_all "tr" [] (parser content)) as [|tr0 tr] eqn:Htr; [done |].
  intros (raw_data & (records & -> & Hall)%scrape_rows_records & [= <- <-])%bind_Ret.
  exists (tr0, tr), records. split_and!; [by exists content | done | done | done].
Qed.

Lemma letter_step_Return_inv get parser letter df_list r :
  letter_step get parser letter df_list = Ret (Return r) →
  (r = PairOfLists [] [] ∧ fetch get (players_url letter) = None) ∨
  (r = DataFrame [] [] ∧
   ∃ content, fetch get (players_url letter) = Some content ∧
              find_all "tr" [] (parser content) = []).
Proof.
  unfold letter_step.
  destruct (fetch get (players_url letter)) as [content|] eqn:Hfetch.
  - destruct (find_all "tr" [] (parser content)) as [|tr0 tr] eqn:Htr.
    + intros [= <-]. right. eauto.
    + by destruct (scrape_rows tr []).
  - intros [= <-]. by left.
Qed.

Lemma letter_step_Raise_inv get parser letter df_list e :
  letter_step get parser letter df_list = Raise e →
  ∃ page row, is_page get parser letter page ∧ row ∈ page.2 ∧ scrape_row row = Raise e.
Proof.
  unfold letter_step.
  destruct (fetch get (players_url letter)) as [content|] eqn:Hfetch; [|done].
  destruct (find_all "tr" [] (parser content)) as [|tr0 tr] eqn:Htr; [done |].
  intros [(row & Hin & Hrow)%scrape_rows_Raise_inv | (? & _ & ?)]%bind_Raise; [|done].
  exists (tr0, tr), row. split_and!; [by exists content | done | done].
Qed.

Lemma run_letters_pages get parser letters pages data df_list headers :
  Forall2 (is_page get parser) letters pages →
  Forall2 (λ row record, scrape_row row = Ret record) (concat (pages.*2)) data →
  run_letters get parser letters df_list headers
  = Ret (Next (df_list ++ data) (loop_headers headers pages)).
Proof.
  intros Hpages. revert data df_list headers.
  induction Hpages as [|letter page letters pages Hpage _ IH]; intros data df_list headers.
  - intros ->%Forall2_nil_inv_l. simpl. by rewrite app_nil_r.
  - simpl. intros (records & data' & Hrecords & Hdata & ->)%Forall2_app_inv_l.
    rewrite (letter_step_page _ _ _ _ _ _ Hpage Hrecords). simpl.
    by rewrite (IH _ _ _ Hdata), loop_headers_cons, <- app_assoc.
Qed.

Lemma run_letters_Next_inv get parser letters df_list headers df_list' headers' :
  run_letters get parser letters df_list headers = Ret (Next df_list' headers') →
  ∃ pages data,
    Forall2 (is_page get parser) letters pages ∧
    Forall2 (λ row record, scrape_row row = Ret record) (concat (pages.*2)) data ∧
    df_list' = df_list ++ data ∧ headers' = loop_headers headers pages.
Proof.
  revert df_list headers. induction letters as [|letter letters IH]; intros df_list headers.
  - simpl. intros [= <- <-]. exists [], []. by rewrite app_nil_r.
  - simpl. intros (f & Hstep & Hrest)%bind_Ret. destruct f as [df1 hs1|r]; [|done].
    apply letter_step_Next_inv in Hstep as (page & records & Hpage & Hrecords & -> & ->).
    apply IH in Hrest as (pages & data & Hpages & Hdata & -> & ->).
    exists (page :: pages), (records ++ data). split_and!.
    + by constructor.
    + simpl. by apply Forall2_app.
    + by rewrite <- app_assoc.
    + by rewrite loop_headers_cons.
Qed.

Lemma run_letters_Return_inv get parser letters df_list headers r :
  run_letters get parser letters df_list headers = Ret (Return r) →
  r = PairOfLists [] [] ∨ r = DataFrame [] [].
Proof.
  revert df_list headers. induction letters as [|letter letters IH]; intros df_list headers;
    [done |].
  simpl. intros (f & Hstep & Hrest)%bind_Ret. destruct f as [df1 hs1|r']; [by eapply IH |].
  injection Hrest as ->. apply letter_step_Return_inv in Hstep as [[-> _] | [-> _]]; auto.
Qed.

Lemma run_letters_Raise_inv get parser letters df_list headers e :
  run_letters get parser letters df_list headers = Raise e →
  ∃ letter page row,
    letter ∈ letters ∧ is_page get parser letter page ∧ row ∈ page.2 ∧
    scrape_row row = Raise e.
Proof.
  revert df_list headers. induction letters as [|letter letters IH]; intros df_list headers;
    [done |].
  simpl. intros [Hstep | (f & _ & Hrest)]%bind_Raise.
  - apply letter_step_Raise_inv in Hstep as (page & row & ? & ? & ?).
    exists letter, page, row. split_and!; [left | done..].
  - destruct f as [df1 hs1|r']; [|done].
    apply IH in Hrest as (letter' & page & row & ? & ? & ? & ?).
    exists letter', page, row. split_and!; [by right | done..].
Qed.

Lemma Forall2_last {A B} (P : A → B → Prop) l k y :
  Forall2 P l k → last k = Some y → ∃ x, last l = Some x ∧ P x y.
Proof.
  induction 1 as [|x y' l k Hxy Hlk IH]; [done |].
  rewrite !last_cons. destruct (last k) as [y''|] eqn:Hk.
  - intros [= ->]. destruct IH as (x' & -> & ?); [done |]. eauto.
  - intros [= ->]. apply last_None in Hk as ->. apply Forall2_nil_inv_r in Hlk as ->.
    simpl. eauto.
Qed.

(** ** The whole fetch *)

(** X11: When every letter is served a page with a first row, every data row
    gives a record and the records are as wide as the column list (what
    [pd.DataFrame] asks of its arguments), the fetch builds the frame from
    the records of all pages, page after page in letter order, under the
    column names of the last page; [to_csv] is called when [save_results] is
    set. *)
Theorem get_all_players_success get parser save pages last_page data :
  Forall2 (is_page get parser) lowercase_letters pages →
  Forall2 (λ row record, scrape_row row = Ret record) (concat (pages.*2)) data →
  last pages = Some last_page →
  Forall (λ record, length record = length (frame_columns (page_header last_page.1)))
         data →
  get_all_players get parser save
  = Ret (DataFrame (frame_columns (page_header last_page.1)) data,
         if save then Some csv_path else None).
Proof.
  intros Hpages Hdata Hlast _. unfold get_all_players.
  fold lowercase_letters. rewrite (run_letters_pages _ _ _ _ _ _ _ Hpages Hdata).
  simpl. unfold loop_headers. by rewrite Hlast.
Qed.

Lemma get_all_players_success_witness :
  Forall2 (is_page always_ok (λ _, roster_page)) lowercase_letters
          (replicate 26 (roster_header_row, roster_data_rows)) ∧
  Forall2 (λ row record, scrape_row row = Ret record)
          (concat ((replicate 26 (roster_header_row, roster_data_rows)).*2))
          (concat (replicate 26 roster_records)) ∧
  last (replicate 26 (roster_header_row, roster_data_rows))
    = Some (roster_header_row, roster_data_rows) ∧
  Forall (λ record, length record
                    = length (frame_columns (page_header roster_header_row)))
         (concat (replicate 26 roster_records)) ∧
  get_all_players always_ok (λ _, roster_page) true
  = Ret (DataFrame (frame_columns (page_header roster_header_row))
                   (concat (replicate 26 roster_records)),
         Some csv_path).
Proof.
  assert (Hpages : Forall2 (is_page always_ok (λ _, roster_page)) lowercase_letters
                     (replicate 26 (roster_header_row, roster_data_rows))).
  { repeat (apply Forall2_cons_2;
            [by exists "<table>...</table>" |]). apply Forall2_nil_2. }
  assert (Hdata : Forall2 (λ row record, scrape_row row = Ret record)
                    (concat ((replicate 26 (roster_header_row, roster_data_rows)).*2))
                    (concat (replicate 26 roster_records))).
  { repeat (apply Forall2_cons_2; [reflexivity |]). apply Forall2_nil_2. }
  assert (Hwidth : Forall (λ record, length record
                             = length (frame_columns (page_header roster_header_row)))
                     (concat (replicate 26 roster_records))).
  { refine (bool_decide_unpack _ _). vm_compute. exact I. }
  split; [exact Hpages |]. split; [exact Hdata |]. split; [reflexivity |].
  split; [exact Hwidth |].
  exact (get_all_players_success always_ok (λ _, roster_page) true _
           (roster_header_row, roster_data_rows) _ Hpages Hdata eq_refl Hwidth).
Defined.

(** X12: A data frame with columns comes from a complete run only: every letter
    was served a page, the data are the records of all data rows in page
    order, and the column names are those of the page for [z]. *)
Theorem get_all_players_frame_inv get parser save columns data written :
  get_all_players get parser save = Ret (DataFrame columns data, written) →
  columns ≠ [] →
  ∃ pages last_page,
    Forall2 (is_page get parser) lowercase_letters pages ∧
    Forall2 (λ row record, scrape_row row = Ret record) (concat (pages.*2)) data ∧
    last pages = Some last_page ∧ is_page get parser "z"%char last_page ∧
    columns = frame_columns (page_header last_page.1) ∧
    written = if save then Some csv_path else None.
Proof.
  unfold get_all_players. fold lowercase_letters.
  intros (f & Hrun & H)%bind_Ret Hcolumns. destruct f as [df_list [headers|]|r].
  - injection H as Hcols Hdf Hwritten.
    apply run_letters_Next_inv in Hrun as (pages & data' & Hpages & Hdata & Hdf' & Hheaders).
    simpl in Hdf'. subst df_list data'.
    unfold loop_headers in Hheaders.
    destruct (last pages) as [last_page|] eqn:Hlast; [|done].
    injection Hheaders as ->. exists pages, last_page.
    destruct (Forall2_last _ _ _ _ Hpages Hlast) as (letter & Hletter & Hpage).
    injection Hletter as <-. by split_and!.
  - done.
  - injection H as -> <-.
    apply run_letters_Return_inv in Hrun as [? | [= -> ->]]; done.
Qed.

Lemma get_all_players_frame_inv_witness :
  get_all_players always_ok (λ _, roster_page) false
    = Ret (DataFrame ["player"; "from"; "to"; "url"; "is_active"; "is_hof"]
                     (concat (replicate 26 roster_records)), None) ∧
  ["player"; "from"; "to"; "url"; "is_active"; "is_hof"] ≠ [] ∧
  ∃ pages last_page,
    Forall2 (is_page always_ok (λ _, roster_page)) lowercase_letters pages ∧
    Forall2 (λ row record, scrape_row row = Ret record) (concat (pages.*2))
            (concat (replicate 26 roster_records)) ∧
    last pages = Some last_page ∧
    is_page always_ok (λ _, roster_page) "z"%char last_page ∧
    ["player"; "from"; "to"; "url"; "is_active"; "is_hof"]
      = frame_columns (page_header last_page.1) ∧
    None = if false then Some csv_path else None.
Proof.
  split; [reflexivity |]. split; [done |].
  apply (get_all_players_frame_inv always_ok (λ _, roster_page) false); [reflexivity | done].
Defined.

(** X13: The letter loop raises only what a data row raises: [IndexError] or
    [KeyError], from a row of a page that was served; and when it has gone
    through all the letters, [headers] is bound. *)
Theorem letter_loop_errors get parser :
  (∀ e, run_letters get parser lowercase_letters [] None = Raise e →
        (e = IndexError ∨ e = KeyError) ∧
        ∃ letter page row,
          letter ∈ lowercase_letters ∧ is_page get parser letter page ∧
          row ∈ page.2 ∧ scrape_row row = Raise e) ∧
  (∀ df_list headers,
     run_letters get parser lowercase_letters [] None = Ret (Next df_list headers) →
     is_Some headers).
Proof.
  split.
  - intros e (letter & page & row & ? & ? & ? & Hrow)%run_letters_Raise_inv.
    split; [by eapply scrape_row_Raise | by exists letter, page, row].
  - intros df_list headers (pages & data & Hpages & _ & _ & ->)%run_letters_Next_inv.
    unfold loop_headers. destruct (last pages) eqn:Hlast; [done |].
    apply last_None in Hlast as ->. by apply Forall2_nil_inv_r in Hpages.
Qed.

Lemma letter_loop_errors_witness :
  run_letters always_ok (λ _, roster_page_empty_name) lowercase_letters [] None
    = Raise IndexError ∧
  (IndexError = IndexError ∨ IndexError = KeyError) ∧
  ∃ letter page row,
    letter ∈ lowercase_letters ∧
    is_page always_ok (λ _, roster_page_empty_name) letter page ∧ row ∈ page.2 ∧
    scrape_row row = Raise IndexError.
Proof.
  split; [reflexivity |].
  apply (proj1 (letter_loop_errors always_ok (λ _, roster_page_empty_name))).
  reflexivity.
Defined.

(** X14: The file is written only at the end of a complete run with
    [save_results] set: an early return never writes it. *)
Theorem csv_written_only_on_completion get parser save r path :
  get_all_players get parser save = Ret (r, Some path) →
  save = true ∧ path = csv_path ∧
  ∃ headers data, r = DataFrame (frame_columns headers) data.
Proof.
  unfold get_all_players. intros (f & _ & H)%bind_Ret.
  destruct f as [df_list [headers|]|r']; [|done..].
  destruct save; [|done]. injection H as <- <-. eauto.
Qed.

Lemma csv_written_only_on_completion_witness :
  get_all_players always_ok (λ _, roster_page) true
    = Ret (DataFrame ["player"; "from"; "to"; "url"; "is_active"; "is_hof"]
                     (concat (replicate 26 roster_records)), Some csv_path) ∧
  true = true ∧ csv_path = csv_path ∧
  ∃ headers data,
    DataFrame ["player"; "from"; "to"; "url"; "is_active"; "is_hof"]
              (concat (replicate 26 roster_records))
    = DataFrame (frame_columns headers) data.
Proof.
  split; [reflexivity |].
  apply (csv_written_only_on_completion always_ok (λ _, roster_page) true); reflexivity.
Defined.

(** X15: A page without any row ends the fetch with an empty data frame: the
    records of the letters before are dropped, nothing is written. *)
Theorem page_without_rows_returns_empty_frame
    get parser save pre letter post df hs content :
  lowercase_letters = pre ++ letter :: post →
  run_letters get parser pre [] None = Ret (Next df hs) →
  fetch get (players_url letter) = Some content →
  find_all "tr" [] (parser content) = [] →
  get_all_players get parser save = Ret (DataFrame [] [], None).
Proof.
  intros Hletters Hpre Hfetch Htr. unfold get_all_players. fold lowercase_letters.
  rewrite Hletters, run_letters_app, Hpre. simpl.
  unfold letter_step. by rewrite Hfetch, Htr.
Qed.

Lemma page_without_rows_returns_empty_frame_witness :
  lowercase_letters
    = ["a"%char] ++ "b"%char :: String.list_ascii_of_string "cdefghijklmnopqrstuvwxyz" ∧
  run_letters rows_for_a_only parse_roster_or_nothing ["a"%char] [] None
    = Ret (Next roster_records (Some ["Player"; "From"; "To"])) ∧
  fetch rows_for_a_only (players_url "b"%char) = Some "<p>nothing</p>" ∧
  find_all "tr" [] (parse_roster_or_nothing "<p>nothing</p>") = [] ∧
  get_all_players rows_for_a_only parse_roster_or_nothing true
    = Ret (DataFrame [] [], None).
Proof.
  do 4 (split; [reflexivity |]).
  apply (page_without_rows_returns_empty_frame rows_for_a_only parse_roster_or_nothing
           true ["a"%char] "b"%char
           (String.list_ascii_of_string "cdefghijklmnopqrstuvwxyz")
           roster_records (Some ["Player"; "From"; "To"])
           "<p>nothing</p>"); reflexivity.
Defined.

Lemma run_letters_ext get get' parser letters df_list headers :
  (∀ letter, letter ∈ letters → get (players_url letter) = get' (players_url letter)) →
  run_letters get parser letters df_list headers
  = run_letters get' parser letters df_list headers.
Proof.
  revert df_list headers. induction letters as [|letter letters IH];
    intros df_list headers Hsame; [done |].
  simpl. assert (letter_step get parser letter df_list
                 = letter_step get' parser letter df_list) as ->.
  { unfold letter_step, fetch. rewrite (Hsame letter) by left. done. }
  destruct (letter_step get' parser letter df_list) as [[df1 hs1|r]|e]; simpl;
    [|done..].
  apply IH. intros l Hl. apply Hsame. by right.
Qed.

(** X16: Once the loop has ended at some letter, by an early return or by an
    exception, the letters after it play no part: whatever the server would
    answer for them, the result is the same. *)
Theorem later_letters_not_fetched get get' parser save pre post :
  lowercase_letters = pre ++ post →
  (∀ letter, letter ∈ pre → get (players_url letter) = get' (players_url letter)) →
  (∀ df hs, run_letters get parser pre [] None ≠ Ret (Next df hs)) →
  get_all_players get' parser save = get_all_players get parser save.
Proof.
  intros Hletters Hsame Hended. unfold get_all_players. fold lowercase_letters.
  rewrite Hletters, !run_letters_app, <- (run_letters_ext get get' parser pre) by done.
  destruct (run_letters get parser pre [] None) as [[df hs|r]|e]; simpl; [|done..].
  by destruct (Hended df hs).
Qed.

Lemma later_letters_not_fetched_witness :
  lowercase_letters
    = ["a"%char; "b"%char] ++ String.list_ascii_of_string "cdefghijklmnopqrstuvwxyz" ∧
  (∀ letter, letter ∈ ["a"%char; "b"%char] →
             only_letter_a (players_url letter) = unreachable_after_b (players_url letter)) ∧
  (∀ df hs, run_letters only_letter_a (λ _, roster_page) ["a"%char; "b"%char] [] None
            ≠ Ret (Next df hs)) ∧
  get_all_players unreachable_after_b (λ _, roster_page) true
    = get_all_players only_letter_a (λ _, roster_page) true.
Proof.
  assert (Hsame : ∀ letter, letter ∈ ["a"%char; "b"%char] →
            only_letter_a (players_url letter) = unreachable_after_b (players_url letter)).
  { intros letter [-> | [-> | Hin%elem_of_nil]%elem_of_cons]%elem_of_cons;
      [reflexivity | reflexivity | done]. }
  assert (Hended : ∀ df hs,
            run_letters only_letter_a (λ _, roster_page) ["a"%char; "b"%char] [] None
            ≠ Ret (Next df hs)).
  { intros df hs H. vm_compute in H. discriminate H. }
  split; [reflexivity |]. split; [exact Hsame |]. split; [exact Hended |].
  exact (later_letters_not_fetched only_letter_a unreachable_after_b (λ _, roster_page)
           true ["a"%char; "b"%char]
           (String.list_ascii_of_string "cdefghijklmnopqrstuvwxyz") eq_refl Hsame Hended).
Defined.

(** ** Column names *)

Lemma split_nonempty c s : Str.split c s ≠ [].
Proof.
  destruct s as [|a s]; simpl; [done |].
  case_bool_decide; [done |]. by destruct (Str.split c s).
Qed.

Lemma split_length c s :
  length (Str.split c s) = S (length (filter (λ a, a = c) (chars s))).
Proof.
  induction s as [|a s IH]; [done |].
  simpl. case_bool_decide as Hac.
  - rewrite filter_cons_True by done. simpl. by rewrite IH.
  - rewrite filter_cons_False by done.
    pose proof (split_nonempty c s). by destruct (Str.split c s).
Qed.

Lemma split_no_separator c s : Forall (λ w, c ∉ chars w) (Str.split c s).
Proof.
  induction s as [|a s IH]; simpl.
  - constructor; [apply not_elem_of_nil | constructor].
  - case_bool_decide as Hac.
    + constructor; [apply not_elem_of_nil | done].
    + destruct (Str.split c s) as [|w ws].
      * constructor; [|constructor]. simpl.
        intros [?|?%elem_of_nil]%elem_of_cons; [congruence | done].
      * apply Forall_cons in IH as [Hw Hws]. constructor; [|done]. simpl.
        intros [?|?]%elem_of_cons; [congruence | done].
Qed.

Lemma join_split c s : join c (Str.split c s) = s.
Proof.
  induction s as [|a s IH]; [done |].
  simpl. case_bool_decide as Hac.
  - subst a. pose proof (split_nonempty c s).
    destruct (Str.split c s) as [|w ws] eqn:Hsplit; [done |].
    change (join c ("" :: w :: ws)) with ("" +:+ String c (join c (w :: ws))).
    by rewrite IH.
  - pose proof (split_nonempty c s).
    destruct (Str.split c s) as [|w ws] eqn:Hsplit; [done |].
    destruct ws as [|w' ws].
    + simpl in *. by rewrite IH.
    + change (join c (String a w :: w' :: ws))
        with (String a w +:+ String c (join c (w' :: ws))).
      change (join c (w :: w' :: ws)) with (w +:+ String c (join c (w' :: ws))) in IH.
      by rewrite string_app_cons, IH.
Qed.

(** X17: The names read off the first row of a page: one more than the line
    breaks in the row's stripped text, none with a line break inside, and
    together, joined by line breaks, the stripped text again. *)
Theorem page_header_names tr0 :
  length (page_header tr0)
    = S (length (filter (λ a, a = Str.newline) (chars (Str.strip (get_text tr0))))) ∧
  Forall (λ name, Str.newline ∉ chars name) (page_header tr0) ∧
  join Str.newline (page_header tr0) = Str.strip (get_text tr0).
Proof.
  unfold page_header. split_and!;
    [apply split_length | apply split_no_separator | apply join_split].
Qed.

Lemma chars_lower s : chars (Str.lower s) = Str.lower_char <$> chars s.
Proof. induction s as [|a s IH]; [done |]. simpl. by rewrite IH. Qed.

Lemma lower_char_not_upper a : is_upper (Str.lower_char a) = false.
Proof. by destruct a as [[] [] [] [] [] [] [] []]. Qed.

Lemma lower_char_newline a : Str.lower_char a = Str.newline → a = Str.newline.
Proof. destruct a as [[] [] [] [] [] [] [] []]; by vm_compute. Qed.

Lemma fixed_names_shape :
  Forall (λ name, (Str.newline ∉ chars name) ∧
                  Forall (λ a, is_upper a = false) (chars name))
         ["url"; "is_active"; "is_hof"].
Proof. refine (bool_decide_unpack _ _). vm_compute. exact I. Qed.

(** X18: The columns of a complete frame: the lower-cased names of the last
    page, at least one, then [url], [is_active] and [is_hof]; no name holds
    a line break or an upper-case letter of the ASCII range. *)
Theorem column_names_shape get parser save columns data written :
  get_all_players get parser save = Ret (DataFrame columns data, written) →
  columns ≠ [] →
  4 ≤ length columns ∧
  drop (length columns - 3) columns = ["url"; "is_active"; "is_hof"] ∧
  Forall (λ name, (Str.newline ∉ chars name) ∧
                  Forall (λ a, is_upper a = false) (chars name)) columns.
Proof.
  unfold get_all_players. intros (f & Hrun & H)%bind_Ret Hcolumns.
  destruct f as [df_list [headers|]|r].
  - injection H as <- _ _.
    apply run_letters_Next_inv in Hrun as (pages & _ & _ & _ & _ & Hheaders).
    unfold loop_headers in Hheaders. destruct (last pages) as [page|]; [|done].
    injection Hheaders as ->.
    pose proof (split_nonempty Str.newline (Str.strip (get_text page.1))) as Hne.
    pose proof (split_no_separator Str.newline (Str.strip (get_text page.1))) as Hsep.
    fold (page_header page.1) in Hne, Hsep.
    split_and!.
    + rewrite length_app, length_fmap. simpl.
      destruct (page_header page.1); [done | simpl; lia].
    + rewrite length_app, length_fmap. simpl.
      replace (length (page_header page.1) + 3 - 3)
        with (length (Str.lower <$> page_header page.1)) by (rewrite length_fmap; lia).
      by rewrite drop_app_length.
    + apply Forall_app. split.
      * apply Forall_fmap. eapply Forall_impl; [exact Hsep |]. simpl.
        intros name Hname. rewrite chars_lower. split.
        -- intros (a & Ha & Hin)%list_elem_of_fmap. symmetry in Ha.
           apply lower_char_newline in Ha as ->. done.
        -- apply Forall_fmap, Forall_forall. intros a _. apply lower_char_not_upper.
      * exact fixed_names_shape.
  - done.
  - injection H as -> _.
    apply run_letters_Return_inv in Hrun as [? | [= -> ->]]; done.
Qed.

Lemma column_names_shape_witness :
  get_all_players always_ok (λ _, roster_page) false
    = Ret (DataFrame ["player"; "from"; "to"; "url"; "is_active"; "is_hof"]
                     (concat (replicate 26 roster_records)), None) ∧
  ["player"; "from"; "to"; "url"; "is_active"; "is_hof"] ≠ [] ∧
  4 ≤ length ["player"; "from"; "to"; "url"; "is_active"; "is_hof"] ∧
  drop (length ["player"; "from"; "to"; "url"; "is_active"; "is_hof"] - 3)
       ["player"; "from"; "to"; "url"; "is_active"; "is_hof"]
    = ["url"; "is_active"; "is_hof"] ∧
  Forall (λ name, (Str.newline ∉ chars name) ∧
                  Forall (λ a, is_upper a = false) (chars name))
         ["player"; "from"; "to"; "url"; "is_active"; "is_hof"].
Proof.
  split; [reflexivity |]. split; [done |].
  apply (column_names_shape always_ok (λ _, roster_page) false _
           (concat (replicate 26 roster_records)) None); [reflexivity | done].
Defined.

(** ** Where [get_table] reads from *)

Lemma table_parts_located parser soup div_id headers rows :
  table_parts parser soup div_id = Ret (Some (headers, rows)) ↔
  located soup div_id headers rows.
Proof.
  unfold table_parts, located. split.
  - destruct (find "div" [("id", Some div_id)] soup) as [table_div|] eqn:Hfind.
    + rewrite (locate_div_direct _ _ _ _ Hfind). simpl.
      destruct (find "thead" [] table_div) as [thead|] eqn:Hthead; [|done].
      destruct (find "tbody" [] table_div) as [tbody|] eqn:Htbody; [|done].
      intros [= <- <-]. by exists table_div, thead, tbody.
    + rewrite (locate_div_fallback _ _ _ Hfind).
      by destruct (existsb is_string_node (descendants soup)).
  - intros (table_div & thead & tbody & Hfind & Hthead & Htbody & -> & ->).
    rewrite (locate_div_direct _ _ _ _ Hfind). simpl. by rewrite Hthead, Htbody.
Qed.

Lemma find_self name filters (d : node) :
  tag_matches name filters d →
  find name filters (Tag "[document]" ∅ [d]) = Some d.
Proof.
  intros Hd. unfold find, find_all. simpl. by rewrite filter_cons_True.
Qed.

Lemma find_matches name filters n d :
  find name filters n = Some d → tag_matches name filters d.
Proof.
  unfold find, find_all. intros Hhead%head_Some_elem_of.
  by apply list_elem_of_filter in Hhead as [? _].
Qed.

(** X6: Only the first container with the identifier counts: the result is that
    of the document that holds this container and nothing else. *)
Theorem get_table_container_only parser soup div_id table_div :
  find "div" [("id", Some div_id)] soup = Some table_div →
  get_table parser soup div_id
  = get_table parser (Tag "[document]" ∅ [table_div]) div_id.
Proof.
  intros Hfind. pose proof (find_self _ _ _ (find_matches _ _ _ _ Hfind)) as Hself.
  unfold get_table, table_parts.
  by rewrite (locate_div_direct _ _ _ _ Hfind), (locate_div_direct _ _ _ _ Hself).
Qed.

Lemma get_table_container_only_witness :
  find "div" [("id", Some "per_game")] player_page = Some per_game_div ∧
  get_table sample_parser player_page "per_game"
  = get_table sample_parser (Tag "[document]" ∅ [per_game_div]) "per_game".
Proof.
  split; [reflexivity |].
  apply (get_table_container_only sample_parser player_page "per_game" per_game_div).
  reflexivity.
Defined.

(** ** What [get_table] raises *)

Lemma column_Raise_row cell th rows e :
  column cell th rows = Raise e → ∃ row, row ∈ rows ∧ lookup_cell cell th row = None.
Proof.
  induction rows as [|row rows IH]; simpl; [done |].
  intros [Hv | (v & _ & [Hvs | (vs & _ & ?)]%bind_Raise)]%bind_Raise; [| |done].
  - exists row. split; [left |]. unfold cell_text in Hv. unfold lookup_cell.
    by destruct (find _ _ _).
  - destruct (IH Hvs) as (row' & ? & ?). exists row'. split; [by right | done].
Qed.

Lemma td_columns_Raise_row ths rows e :
  td_columns ths rows = Raise e →
  ∃ j th row, ths !! j = Some th ∧ row ∈ rows ∧ lookup_cell "td" th row = None.
Proof.
  induction ths as [|th ths IH]; simpl; [done |].
  intros [Hv | (v & _ & [Hvs | (vs & _ & ?)]%bind_Raise)]%bind_Raise; [| |done].
  - apply column_Raise_row in Hv as (row & ? & ?). by exists 0, th, row.
  - destruct (IH Hvs) as (j & th' & row & ? & ? & ?). by exists (S j), th', row.
Qed.

Lemma header_columns_Raise_row headers rows e :
  header_columns headers rows = Raise e → headers ≠ [] →
  ∃ j h row, headers !! j = Some h ∧ row ∈ rows ∧ lookup_cell (cell_tag j) h row = None.
Proof.
  unfold header_columns. destruct headers as [|h0 ths]; [done |]. intros H _.
  apply bind_Raise in H as [H | (v0 & _ & [H | (cols & _ & ?)]%bind_Raise)]; [| |done].
  - apply column_Raise_row in H as (row & ? & ?). by exists 0, h0, row.
  - apply td_columns_Raise_row in H as (j & th & row & ? & ? & ?). by exists (S j), th, row.
Qed.

(** X3: The three ways [get_table] raises, and no other: [NameError] when the
    container is not found directly and the document holds a string node;
    [IndexError] when the container's header section has no header cell;
    [AttributeError] when some row has no cell for some header cell. *)
Theorem get_table_raises_iff parser soup div_id e :
  get_table parser soup div_id = Raise e ↔
  (e = NameError ∧ find "div" [("id", Some div_id)] soup = None ∧
   ∃ d, d ∈ descendants soup ∧ is_string_node d = true) ∨
  (e = IndexError ∧ ∃ rows, located soup div_id [] rows) ∨
  (e = AttributeError ∧
   ∃ headers rows j h row,
     located soup div_id headers rows ∧ headers !! j = Some h ∧ row ∈ rows ∧
     lookup_cell (cell_tag j) h row = None).
Proof.
  split.
  - unfold get_table. intros [Hparts | (parts & Hparts & H)]%bind_Raise.
    + left. unfold table_parts in Hparts.
      destruct (find "div" [("id", Some div_id)] soup) as [table_div|] eqn:Hfind.
      * rewrite (locate_div_direct _ _ _ _ Hfind) in Hparts. simpl in Hparts.
        by destruct (find "thead" [] table_div), (find "tbody" [] table_div).
      * rewrite (locate_div_fallback _ _ _ Hfind) in Hparts.
        destruct (existsb is_string_node (descendants soup)) eqn:Hex; [|done].
        injection Hparts as <-. split_and!; [done | done |].
        apply existsb_exists in Hex as (d & Hin & Hd).
        exists d. split; [by apply list_elem_of_In | done].
    + destruct parts as [[headers rows]|]; [|done].
      apply table_parts_located in Hparts. rewrite build_table_spec in H.
      destruct (header_columns headers rows) as [cols|e'] eqn:Hcols; [done |].
      injection H as ->.
      destruct (header_columns_Raise _ _ _ Hcols) as [[-> ->] | [Hne ->]].
      * right. left. eauto.
      * right. right. split; [done |].
        destruct (header_columns_Raise_row _ _ _ Hcols Hne) as (j & h & row & ? & ? & ?).
        by exists headers, rows, j, h, row.
  - intros [(-> & Hfind & d & Hin & Hd) | [(-> & rows & Hloc)
            | (-> & headers & rows & j & h & row & Hloc & Hj & Hin & Hnone)]].
    + unfold get_table, table_parts. rewrite (locate_div_fallback _ _ _ Hfind).
      by rewrite (existsb_string_node _ _ Hin Hd).
    + apply (table_parts_located parser) in Hloc.
      by rewrite (get_table_parts _ _ _ _ _ Hloc).
    + apply (table_parts_located parser) in Hloc.
      rewrite (get_table_parts _ _ _ _ _ Hloc), build_table_spec.
      by rewrite (header_columns_missing _ _ _ _ _ Hj Hin Hnone).
Qed.

(** ** When [get_table] returns a table, and which *)

Lemma column_complete cell th rows :
  (∀ row, row ∈ rows → is_Some (lookup_cell cell th row)) →
  column cell th rows
  = Ret ((λ row, from_option get_text "" (lookup_cell cell th row)) <$> rows).
Proof.
  induction rows as [|row rows IH]; intros Hall; [done |].
  simpl. unfold cell_text. fold (lookup_cell cell th row).
  destruct (Hall row) as [c Hc]; [left |]. rewrite Hc. simpl.
  rewrite IH; [done |]. intros row' Hin. apply Hall. by right.
Qed.

Lemma td_columns_complete ths rows :
  (∀ th row, th ∈ ths → row ∈ rows → is_Some (lookup_cell "td" th row)) →
  td_columns ths rows
  = Ret ((λ th, (get_text th,
                 (λ row, from_option get_text "" (lookup_cell "td" th row)) <$> rows))
           <$> ths).
Proof.
  induction ths as [|th ths IH]; intros Hall; [done |].
  simpl. rewrite column_complete by (intros row Hin; apply Hall; [left | done]).
  simpl. rewrite IH; [done |]. intros th' row Hth Hrow. apply Hall; [by right | done].
Qed.

Lemma header_columns_complete headers rows :
  headers ≠ [] →
  (∀ j h row, headers !! j = Some h → row ∈ rows →
              is_Some (lookup_cell (cell_tag j) h row)) →
  header_columns headers rows
  = Ret (imap (λ j h, (get_text h, cell_value j h <$> rows)) headers).
Proof.
  destruct headers as [|h0 ths]; [done |]. intros _ Hall. unfold header_columns.
  rewrite imap_cons.
  rewrite column_complete by (intros row Hin; by apply (Hall 0 h0 row)).
  rewrite td_columns_complete.
  - rewrite <- imap_const. reflexivity.
  - intros th row [j Hj]%list_elem_of_lookup_1 Hrow. by apply (Hall (S j) th row).
Qed.

Lemma dict_set_fresh k v (d : dict) : k ∉ d.*1 → dict_set k v d = d ++ [(k, v)].
Proof.
  induction d as [|[k' v'] d IH]; [done |].
  intros Hnotin. simpl in Hnotin. apply not_elem_of_cons in Hnotin as [Hne Hnotin].
  simpl. rewrite bool_decide_eq_false_2 by done. by rewrite IH.
Qed.

Lemma table_of_columns_distinct cols : NoDup cols.*1 → table_of_columns cols = cols.
Proof.
  induction cols as [|[k vs] cols IH] using rev_ind; [done |].
  rewrite fmap_app. intros (Hnd & Hfresh & _)%NoDup_app.
  rewrite table_of_columns_snoc, IH by done. apply dict_set_fresh.
  intros Hin. apply (Hfresh k Hin). left.
Qed.

Lemma header_columns_keys_imap (headers rows : list node) :
  (imap (λ j h, (get_text h, cell_value j h <$> rows)) headers).*1 = get_text <$> headers.
Proof.
  rewrite fmap_imap. rewrite <- imap_const. by apply imap_ext.
Qed.

(** X1: [get_table] returns a table exactly when the container with both
    sections is found in the document itself, the header section has a
    header cell, and every row has a cell for every header cell. *)
Theorem get_table_returns_iff parser soup div_id :
  (∃ table, get_table parser soup div_id = Ret (Some table)) ↔
  ∃ headers rows,
    located soup div_id headers rows ∧ headers ≠ [] ∧
    ∀ j h row, headers !! j = Some h → row ∈ rows →
               is_Some (lookup_cell (cell_tag j) h row).
Proof.
  split.
  - intros [table (headers & rows & cols & Hparts & Hcols & _)%get_table_Some].
    exists headers, rows. split_and!.
    + by apply (table_parts_located parser).
    + intros ->. done.
    + intros j h row Hj Hin.
      destruct (lookup_cell (cell_tag j) h row) eqn:Hcell; [done |].
      by rewrite (header_columns_missing _ _ _ _ _ Hj Hin Hcell) in Hcols.
  - intros (headers & rows & Hloc%(table_parts_located parser) & Hne & Hall).
    rewrite (get_table_parts _ _ _ _ _ Hloc), build_table_spec.
    rewrite (header_columns_complete _ _ Hne Hall). simpl. eauto.
Qed.

(** X2: With header texts that are all different and a cell in every row for
    every header cell, the table is the list of the header texts in header
    order, each with the texts of its cells in row order. *)
Theorem get_table_complete parser soup div_id headers rows :
  located soup div_id headers rows → headers ≠ [] →
  NoDup (get_text <$> headers) →
  (∀ j h row, headers !! j = Some h → row ∈ rows →
              is_Some (lookup_cell (cell_tag j) h row)) →
  get_table parser soup div_id
  = Ret (Some (imap (λ j h, (get_text h, cell_value j h <$> rows)) headers)).
Proof.
  intros Hloc%(table_parts_located parser) Hne Hnd Hall.
  rewrite (get_table_parts _ _ _ _ _ Hloc), build_table_spec.
  rewrite (header_columns_complete _ _ Hne Hall). simpl.
  rewrite table_of_columns_distinct; [done |]. by rewrite header_columns_keys_imap.
Qed.

(** X7: The keys of a returned table are pairwise different, there is at least
    one, never more than there are header cells, and the first is the text of
    the first header cell. *)
Theorem table_keys_distinct parser soup div_id table :
  get_table parser soup div_id = Ret (Some table) →
  NoDup table.*1 ∧ table ≠ [] ∧
  ∃ headers rows,
    located soup div_id headers rows ∧ length table ≤ length headers ∧
    head table.*1 = head (get_text <$> headers).
Proof.
  intros (headers & rows & cols & Hparts & Hcols & ->)%get_table_Some.
  destruct (header_columns_Ret _ _ _ Hcols) as [Hkeys _].
  assert (Hk : (table_of_columns cols).*1 = first_occurrences (get_text <$> headers))
    by (by rewrite table_of_columns_keys, Hkeys).
  assert (headers ≠ []) as Hne by (intros ->; done).
  split_and!.
  - apply table_of_columns_NoDup.
  - intros Hnil. rewrite Hnil in Hk. by destruct headers.
  - exists headers, rows. split_and!.
    + by apply (table_parts_located parser).
    + rewrite <- (length_fmap fst (table_of_columns cols)), Hk.
      rewrite <- (length_fmap get_text headers). apply length_first_occurrences.
    + rewrite Hk. by destruct headers.
Qed.

Lemma empty_columns (d : dict) :
  Forall (λ kv, kv.2 = []) d → d = (λ k, (k, [])) <$> d.*1.
Proof.
  induction 1 as [|[k vs] d Hkv _ IH]; [done |].
  simpl in Hkv. subst vs.
  change (((k, []) :: d).*1) with (k :: d.*1).
  change ((λ k0 : string, (k0, ([] : list string))) <$> k :: d.*1)
    with ((k, ([] : list string)) :: ((λ k0 : string, (k0, [])) <$> d.*1)).
  by f_equal.
Qed.

(** X8: A body section without rows gives a table all the same: every header
    text, once, with an empty column. *)
Theorem get_table_no_rows parser soup div_id headers :
  located soup div_id headers [] → headers ≠ [] →
  get_table parser soup div_id
  = Ret (Some ((λ k, (k, [])) <$> first_occurrences (get_text <$> headers))).
Proof.
  intros Hloc%(table_parts_located parser) Hne.
  rewrite (get_table_parts _ _ _ _ _ Hloc), build_table_spec.
  rewrite (header_columns_complete _ _ Hne) by (intros ? ? ? _ []%elem_of_nil).
  simpl. f_equal. f_equal.
  set (cols := imap (λ j h, (get_text h, cell_value j h <$> [])) headers).
  assert (Hkeys : cols.*1 = get_text <$> headers) by apply header_columns_keys_imap.
  rewrite <- Hkeys, <- table_of_columns_keys.
  assert (Hempty : Forall (λ kv, kv.2 = []) (table_of_columns cols)).
  { apply Forall_forall. intros [k vs] Hin.
    apply dict_elem_get in Hin; [|apply table_of_columns_NoDup].
    apply table_of_columns_get in Hin as (j & Hj & _).
    unfold cols in Hj. rewrite list_lookup_imap in Hj.
    destruct (headers !! j); simpl in Hj; [|done]. simpl. congruence. }
  by apply empty_columns.
Qed.

Lemma get_table_complete_witness :
  located player_page_reversed "per_game" stat_headers per_game_rows_reversed ∧
  stat_headers ≠ [] ∧
  NoDup (get_text <$> stat_headers) ∧
  (∀ j h row, stat_headers !! j = Some h → row ∈ per_game_rows_reversed →
              is_Some (lookup_cell (cell_tag j) h row)) ∧
  get_table sample_parser player_page_reversed "per_game"
  = Ret (Some (imap (λ j h, (get_text h, cell_value j h <$> per_game_rows_reversed))
                    stat_headers)).
Proof.
  assert (Hloc : located player_page_reversed "per_game" stat_headers
                   per_game_rows_reversed).
  { do 3 eexists. split_and!; reflexivity. }
  assert (Hnd : NoDup (get_text <$> stat_headers)).
  { refine (bool_decide_unpack _ _). vm_compute. exact I. }
  assert (Hall : ∀ j h row, stat_headers !! j = Some h → row ∈ per_game_rows_reversed →
                   is_Some (lookup_cell (cell_tag j) h row)).
  { intros j h row Hj Hin.
    apply elem_of_cons in Hin as [-> | Hin];
      [|apply elem_of_cons in Hin as [-> | Hin]; [|by apply elem_of_nil in Hin]];
      (destruct j as [|[|[|j]]]; simpl in Hj; [| | |done]; injection Hj as <-;
       eexists; reflexivity). }
  split; [exact Hloc |]. split; [done |]. split; [exact Hnd |]. split; [exact Hall |].
  apply (get_table_complete sample_parser player_page_reversed "per_game"
           stat_headers per_game_rows_reversed Hloc); [done | exact Hnd | exact Hall].
Defined.

Lemma table_keys_distinct_witness :
  get_table sample_parser player_page_duplicate_header "transactions"
    = Ret (Some [("Season", ["2001-02"; "2002-03"]); ("Tm", ["LAL"; "MIA"])]) ∧
  NoDup [("Season", ["2001-02"; "2002-03"]); ("Tm", ["LAL"; "MIA"])].*1 ∧
  [("Season", ["2001-02"; "2002-03"]); ("Tm", ["LAL"; "MIA"])] ≠ [] ∧
  ∃ headers rows,
    located player_page_duplicate_header "transactions" headers rows ∧
    length [("Season", ["2001-02"; "2002-03"]); ("Tm", ["LAL"; "MIA"])] ≤ length headers ∧
    head [("Season", ["2001-02"; "2002-03"]); ("Tm", ["LAL"; "MIA"])].*1
      = head (get_text <$> headers).
Proof.
  split; [reflexivity |].
  apply (table_keys_distinct sample_parser player_page_duplicate_header "transactions").
  reflexivity.
Defined.

Lemma get_table_no_rows_witness :
  located player_page_no_rows "per_game" stat_headers [] ∧
  stat_headers ≠ [] ∧
  get_table sample_parser player_page_no_rows "per_game"
  = Ret (Some ((λ k, (k, [])) <$> first_occurrences (get_text <$> stat_headers))).
Proof.
  assert (Hloc : located player_page_no_rows "per_game" stat_headers []).
  { do 3 eexists. split_and!; reflexivity. }
  split; [exact Hloc |]. split; [done |].
  apply (get_table_no_rows sample_parser player_page_no_rows "per_game" stat_headers Hloc).
  done.
Defined.

(** The sample table without rows, spelled out. *)
Example get_table_no_rows_sample :
  get_table sample_parser player_page_no_rows "per_game"
  = Ret (Some [("Season", []); ("Age", []); ("PTS", [])]).
Proof. reflexivity. Qed.
